(** * Velocity-AI: the CSV pipeline form and the run contract it talks to

    Two parts.

    - [App] embeds [ReactApps/vel-csv-pipeline-ui/ui/web/src/App.tsx]: the
      React state of the form, its change handlers, the asynchronous
      [handleRun] with its try / catch / finally, and the conditional part of
      the rendered tree; then [handleRun] once more as a function that
      suspends at its two awaits, and the page with several runs in flight.
    - [Engine] is the stage orchestration and validation engine that the form
      posts to.  The repository holds no source for it; its definitions follow
      the design document section by section, and whatever that document
      leaves open is a field of [Engine.StageRules]. *)

From Stdlib Require Import QArith DecimalString.
From stdpp Require Import gmap strings list fin_maps.

#[local] Set Warnings "-register-all".

Local Open Scope string_scope.
Local Open Scope Z_scope.
Local Open Scope list_scope.

(* ===================================================================== *)
(** * The form: App.tsx                                                   *)
(* ===================================================================== *)

Module App.

(** ** Values *)

(** [type Stage = "Transcript Generator" | ... ] (lines 4-8): a union of four
    string literals.  [stageText] is the string a member is at run time. *)
Inductive Stage : Type :=
  | Transcript_Generator
  | Transcript_Validator
  | Signal_Extractor
  | Shadow_Validator.

Definition stageText (s : Stage) : string :=
  match s with
  | Transcript_Generator => "Transcript Generator"
  | Transcript_Validator => "Transcript Validator"
  | Signal_Extractor => "Signal Extractor"
  | Shadow_Validator => "Shadow Validator"
  end.

(** JavaScript numbers are taken at their exact rational value; rounding to
    binary64, NaN and the infinities are outside the model. *)
Definition JsNumber : Type := Q.

(** A JSON value: what [JSON.stringify] is given and what [res.json()]
    yields.  The serialized text is identified with the value it denotes;
    object members keep their order. *)
Inductive Json : Type :=
  | JNull
  | JBool (b : bool)
  | JNum (n : JsNumber)
  | JStr (s : string)
  | JArr (items : list Json)
  | JObj (members : list (string * Json)).

(** [obj[key]] on a JSON object; [None] is [undefined]. *)
Fixpoint member (key : string) (ms : list (string * Json)) : option Json :=
  match ms with
  | [] => None
  | (k, v) :: rest => if String.eqb k key then Some v else member key rest
  end.

Definition field (key : string) (j : Json) : option Json :=
  match j with
  | JObj ms => member key ms
  | _ => None
  end.

(** The [value] of an [<input type="number">] (lines 87-92).  The browser
    keeps it either empty or a valid floating-point numeral, read here as
    [mantissa * 10 ^ exp10]; "1.5" is [Numeral 15 (-1)]. *)
Inductive NumberField : Type :=
  | Blank
  | Numeral (mantissa exp10 : Z).

(** [Number(e.target.value)] on such a value: the empty string converts to 0. *)
Definition Number (v : NumberField) : JsNumber :=
  match v with
  | Blank => 0%Q
  | Numeral m e => Qred (inject_Z m * Qpower 10 e)
  end.

Definition isInteger (n : JsNumber) : bool :=
  Pos.eqb (Qden (Qred n)) 1.

(** ** Component state (lines 11-20) *)

Record AppState : Type := mkState {
  stage : Stage;
  projectId : string;
  dataset : string;
  sourceVersion : string;
  targetVersion : string;
  limit : JsNumber;
  result : Json;             (* useState<any>(null) *)
  loading : bool;
  error : option string      (* string | null *)
}.

Definition initialState : AppState :=
  {| stage := Transcript_Generator;
     projectId := ""; dataset := ""; sourceVersion := ""; targetVersion := "";
     limit := 100%Q;
     result := JNull; loading := false; error := None |}.

(** ** The network as the form sees it *)

(** A thrown value as the catch clause uses it: only [e.message] is read,
    [None] when the property is absent. *)
Record JsError : Type := mkError { message : option string }.

(** How an awaited promise settles. *)
Inductive Settled (A : Type) : Type :=
  | Fulfilled (a : A)
  | Rejected (e : JsError).
Arguments Fulfilled {A} a.
Arguments Rejected {A} e.

(** A fetch [Response]: its status and how reading its body as JSON settles. *)
Record Response : Type := mkResponse {
  status : N;
  json : Settled Json
}.

(** [res.ok]: the status is in the range 200-299 (Fetch standard). *)
Definition ok (res : Response) : bool :=
  (200 <=? status res)%N && (status res <=? 299)%N.

Record Request : Type := mkRequest {
  url : string;
  method : string;
  headers : list (string * string);
  body : Json
}.

(** What a run does that is visible outside the component. *)
Inductive Effect : Type :=
  | Fetch (req : Request)       (* fetch(url, init) was called *)
  | ReadJson (res : Response).  (* res.json() was called *)

Record World : Type := mkWorld {
  ui : AppState;
  trace : list Effect           (* oldest first *)
}.

(** ** Computations: state, trace and exceptions *)

Definition Task (A : Type) : Type := World -> World * Settled A.

(** Sequencing of statements; a thrown value skips what follows. *)
#[global] Instance Task_ret : MRet Task := fun A a w => (w, Fulfilled a).

#[global] Instance Task_bind : MBind Task := fun A B k m w =>
  match m w with
  | (w', Fulfilled a) => k a w'
  | (w', Rejected e) => (w', Rejected e)
  end.

Definition throw {A : Type} (e : JsError) : Task A :=
  fun w => (w, Rejected e).

(** [try { body } catch (e) { handler e } finally { fin }]. *)
Definition tryCatchFinally {A : Type}
    (tryBlock : Task A) (handler : JsError -> Task A) (fin : Task unit) : Task A :=
  fun w =>
    let '(w1, r1) := tryBlock w in
    let '(w2, r2) := match r1 with
                     | Fulfilled a => (w1, Fulfilled a)
                     | Rejected e => handler e w1
                     end in
    match fin w2 with
    | (w3, Fulfilled _) => (w3, r2)
    | (w3, Rejected e) => (w3, Rejected e)
    end.

Definition modifyState (f : AppState -> AppState) : Task unit :=
  fun w => ({| ui := f (ui w); trace := trace w |}, Fulfilled tt).

Definition getState : Task AppState :=
  fun w => (w, Fulfilled (ui w)).

(** The state setters returned by [useState]. *)
Definition setStage (v : Stage) : Task unit :=
  modifyState (fun s => mkState v (projectId s) (dataset s) (sourceVersion s)
                          (targetVersion s) (limit s) (result s) (loading s) (error s)).
Definition setProjectId (v : string) : Task unit :=
  modifyState (fun s => mkState (stage s) v (dataset s) (sourceVersion s)
                          (targetVersion s) (limit s) (result s) (loading s) (error s)).
Definition setDataset (v : string) : Task unit :=
  modifyState (fun s => mkState (stage s) (projectId s) v (sourceVersion s)
                          (targetVersion s) (limit s) (result s) (loading s) (error s)).
Definition setSourceVersion (v : string) : Task unit :=
  modifyState (fun s => mkState (stage s) (projectId s) (dataset s) v
                          (targetVersion s) (limit s) (result s) (loading s) (error s)).
Definition setTargetVersion (v : string) : Task unit :=
  modifyState (fun s => mkState (stage s) (projectId s) (dataset s) (sourceVersion s)
                          v (limit s) (result s) (loading s) (error s)).
Definition setLimit (v : JsNumber) : Task unit :=
  modifyState (fun s => mkState (stage s) (projectId s) (dataset s) (sourceVersion s)
                          (targetVersion s) v (result s) (loading s) (error s)).
Definition setResult (v : Json) : Task unit :=
  modifyState (fun s => mkState (stage s) (projectId s) (dataset s) (sourceVersion s)
                          (targetVersion s) (limit s) v (loading s) (error s)).
Definition setLoading (v : bool) : Task unit :=
  modifyState (fun s => mkState (stage s) (projectId s) (dataset s) (sourceVersion s)
                          (targetVersion s) (limit s) (result s) v (error s)).
Definition setError (v : option string) : Task unit :=
  modifyState (fun s => mkState (stage s) (projectId s) (dataset s) (sourceVersion s)
                          (targetVersion s) (limit s) (result s) (loading s) v).

(** [await fetch(url, init)]: the call is recorded, and the promise settles
    the way the environment decided ([outcome]). *)
Definition fetch (outcome : Settled Response) (req : Request) : Task Response :=
  fun w =>
    ({| ui := ui w; trace := trace w ++ [Fetch req] |}, outcome).

(** [await res.json()]. *)
Definition readJson (res : Response) : Task Json :=
  fun w =>
    ({| ui := ui w; trace := trace w ++ [ReadJson res] |}, json res).

(** [`HTTP ${res.status}`] *)
Definition httpMessage (code : N) : string :=
  ("HTTP " ++ NilZero.string_of_uint (N.to_uint code))%string.

(** [e.message ?? "Unknown error"] *)
Definition messageOrUnknown (e : JsError) : string :=
  match message e with
  | Some m => m
  | None => "Unknown error"
  end.

(** ** handleRun (lines 22-44) *)

(** [{ stage, projectId, dataset, sourceVersion, targetVersion, limit }] *)
Definition payload (s : AppState) : Json :=
  JObj [ ("stage", JStr (stageText (stage s)));
         ("projectId", JStr (projectId s));
         ("dataset", JStr (dataset s));
         ("sourceVersion", JStr (sourceVersion s));
         ("targetVersion", JStr (targetVersion s));
         ("limit", JNum (limit s)) ].

(** The handler closes over the state of the render it was created in, which
    is the state at the click; [outcome] is how the environment settles the
    fetch this run issues. *)
Definition handleRun (outcome : Settled Response) : Task unit :=
  s ← getState;
  setLoading true;;
  setError None;;
  setResult JNull;;
  tryCatchFinally
    (res ← fetch outcome
             {| url := "/api/run";
                method := "POST";
                headers := [("Content-Type", "application/json")];
                body := payload s |};
     if negb (ok res)
     then throw {| message := Some (httpMessage (status res)) |}
     else data ← readJson res;
          setResult data)
    (fun e => setError (Some (messageOrUnknown e)))
    (setLoading false).

(** ** Events *)

Inductive Event : Type :=
  | SelectStage (option_ : Stage)          (* the select holds exactly four options *)
  | TypeProjectId (v : string)
  | TypeDataset (v : string)
  | TypeSourceVersion (v : string)
  | TypeTargetVersion (v : string)
  | TypeLimit (v : NumberField)
  | ClickRun (outcome : Settled Response).

(** The handler attached to each control (lines 52-97). *)
Definition handler (ev : Event) : Task unit :=
  match ev with
  | SelectStage o => setStage o
  | TypeProjectId v => setProjectId v
  | TypeDataset v => setDataset v
  | TypeSourceVersion v => setSourceVersion v
  | TypeTargetVersion v => setTargetVersion v
  | TypeLimit v => setLimit (Number v)
  | ClickRun outcome => handleRun outcome
  end.

Definition step (w : World) (ev : Event) : World := fst (handler ev w).

Definition initialWorld : World := {| ui := initialState; trace := [] |}.

(** The world after a session of events, each handled to completion. *)
Definition session (evs : list Event) : World := foldl step initialWorld evs.

Definition requests (t : list Effect) : list Request :=
  omap (fun e => match e with Fetch r => Some r | ReadJson _ => None end) t.

Definition bodyReads (t : list Effect) : list Response :=
  omap (fun e => match e with ReadJson r => Some r | Fetch _ => None end) t.

Definition isClick (ev : Event) : bool :=
  match ev with
  | ClickRun _ => true
  | _ => false
  end.

Definition clicks (evs : list Event) : nat := length (List.filter isClick evs).

(** The request of the run contract as the design document words it
    (section 6): [POST /run], six members, [limit] an integer. *)
Definition specifiedRun (req : Request) : Prop :=
  url req = "/run" /\ method req = "POST" /\
  exists st p d sv tv l,
    body req = JObj [ ("stage", JStr st); ("projectId", JStr p); ("dataset", JStr d);
                      ("sourceVersion", JStr sv); ("targetVersion", JStr tv);
                      ("limit", JNum l) ]
    /\ isInteger l = true.

(** The same with the path the form uses and no condition on the number. *)
Definition issuedRun (req : Request) : Prop :=
  url req = "/api/run" /\ method req = "POST" /\
  exists st p d sv tv l,
    body req = JObj [ ("stage", JStr st); ("projectId", JStr p); ("dataset", JStr d);
                      ("sourceVersion", JStr sv); ("targetVersion", JStr tv);
                      ("limit", JNum l) ].

(** The stage names of the design document (section 3), and the option texts
    of the select (lines 53-56). *)
Definition specifiedStageNames : list string :=
  ["TranscriptGenerator"; "TranscriptValidator"; "SignalExtractor"; "ShadowValidator"].

Definition optionTexts : list string :=
  ["Transcript Generator"; "Transcript Validator"; "Signal Extractor"; "Shadow Validator"].

(** ** The conditional children of the rendered tree (lines 98-104) *)

Inductive Node : Type :=
  | RunningP                       (* <p>Running...</p> *)
  | ErrorP (msg : string)          (* <p style=red>Error: {error}</p> *)
  | ResultPre (data : Json)        (* <pre>{JSON.stringify(result, null, 2)}</pre> *)
  | TextNode (text : string).      (* a falsy operand of && that React still prints *)

(** JavaScript truthiness of a JSON value. *)
Definition truthy (j : Json) : bool :=
  match j with
  | JNull => false
  | JBool b => b
  | JNum n => negb (Qeq_bool n 0)
  | JStr s => negb (String.eqb s "")
  | JArr _ | JObj _ => true
  end.

Definition conditionalChildren (s : AppState) : list Node :=
  (if loading s then [RunningP] else [])
  ++ match error s with
     | Some m => if String.eqb m "" then [] else [ErrorP m]
     | None => []
     end
  ++ (if truthy (result s) then [ResultPre (result s)]
      else match result s with
           | JNum _ => [TextNode "0"]
           | _ => []
           end).

(** ** handleRun as an asynchronous function *)

(** A computation that may suspend at an [await].  A node hands the way its
    statement or promise settled to what follows; [Perform] is a synchronous
    statement, the two others are the awaits of [handleRun]. *)
Inductive Async (A : Type) : Type :=
  | Return (a : A)
  | Raise (e : JsError)
  | Perform (act : Task unit) (next : Settled unit -> Async A)
  | AwaitFetch (req : Request) (next : Settled Response -> Async A)
  | AwaitJson (res : Response) (next : Settled Json -> Async A).
Arguments Return {A} a.
Arguments Raise {A} e.
Arguments Perform {A} act next.
Arguments AwaitFetch {A} req next.
Arguments AwaitJson {A} res next.

Fixpoint bindAsync {A B : Type} (p : Async A) (k : A -> Async B) : Async B :=
  match p with
  | Return a => k a
  | Raise e => Raise e
  | Perform act next => Perform act (fun o => bindAsync (next o) k)
  | AwaitFetch req next => AwaitFetch req (fun o => bindAsync (next o) k)
  | AwaitJson res next => AwaitJson res (fun o => bindAsync (next o) k)
  end.

(** Sequencing of statements across awaits. *)
#[global] Instance Async_ret : MRet Async := fun A a => Return a.

#[global] Instance Async_bind : MBind Async := fun A B k p => bindAsync p k.

(** A settled promise read by [await]: its value, or its reason thrown. *)
Definition settled {A : Type} (o : Settled A) : Async A :=
  match o with
  | Fulfilled a => Return a
  | Rejected e => Raise e
  end.

Definition perform (act : Task unit) : Async unit := Perform act settled.

Definition awaitFetch (req : Request) : Async Response := AwaitFetch req settled.

Definition awaitJson (res : Response) : Async Json := AwaitJson res settled.

Fixpoint catchAsync {A : Type} (p : Async A) (handler : JsError -> Async A) : Async A :=
  match p with
  | Return a => Return a
  | Raise e => handler e
  | Perform act next => Perform act (fun o => catchAsync (next o) handler)
  | AwaitFetch req next => AwaitFetch req (fun o => catchAsync (next o) handler)
  | AwaitJson res next => AwaitJson res (fun o => catchAsync (next o) handler)
  end.

Fixpoint finallyAsync {A : Type} (p : Async A) (fin : Async unit) : Async A :=
  match p with
  | Return a => bindAsync fin (fun _ => Return a)
  | Raise e => bindAsync fin (fun _ => Raise e)
  | Perform act next => Perform act (fun o => finallyAsync (next o) fin)
  | AwaitFetch req next => AwaitFetch req (fun o => finallyAsync (next o) fin)
  | AwaitJson res next => AwaitJson res (fun o => finallyAsync (next o) fin)
  end.

(** [try { body } catch (e) { handler e } finally { fin }] around awaits. *)
Definition tryCatchFinallyAsync {A : Type}
    (tryBlock : Async A) (handler : JsError -> Async A) (fin : Async unit) : Async A :=
  finallyAsync (catchAsync tryBlock handler) fin.

(** [handleRun] (lines 22-44) with its two awaits as suspension points; [s] is
    the state the handler closed over. *)
Definition handleRunAsync (s : AppState) : Async unit :=
  perform (setLoading true);;
  perform (setError None);;
  perform (setResult JNull);;
  tryCatchFinallyAsync
    (res ← awaitFetch
             {| url := "/api/run";
                method := "POST";
                headers := [("Content-Type", "application/json")];
                body := payload s |};
     if negb (ok res)
     then Raise {| message := Some (httpMessage (status res)) |}
     else data ← awaitJson res;
          perform (setResult data))
    (fun e => perform (setError (Some (messageOrUnknown e))))
    (perform (setLoading false)).

(** What is left of [handleRun] once the fetch has settled as [o], and once
    the fetch has answered [res] with an OK status and the body is awaited. *)
Definition afterFetch (o : Settled Response) : Async unit :=
  tryCatchFinallyAsync
    (res ← settled o;
     if negb (ok res)
     then Raise {| message := Some (httpMessage (status res)) |}
     else data ← awaitJson res;
          perform (setResult data))
    (fun e => perform (setError (Some (messageOrUnknown e))))
    (perform (setLoading false)).

Definition afterJson (res : Response) : Async unit :=
  tryCatchFinallyAsync
    (data ← settled (json res);
     perform (setResult data))
    (fun e => perform (setError (Some (messageOrUnknown e))))
    (perform (setLoading false)).

(** The promise a suspended run waits for. *)
Inductive AwaitPoint : Type :=
  | AtFetch
  | AtJson (res : Response).

Inductive Progress (A : Type) : Type :=
  | Finished (r : Settled A)
  | Suspended (at_ : AwaitPoint) (rest : Async A).
Arguments Finished {A} r.
Arguments Suspended {A} at_ rest.

(** Runs a computation up to its next await.  Calling [fetch] or [res.json()]
    is recorded at once; [rest] is what runs when the promise has settled,
    [outcome] being how the environment settles the fetch of this run and
    [json res] how it settles the reading of a body. *)
Fixpoint advance {A : Type} (outcome : Settled Response) (p : Async A) (w : World)
    : World * Progress A :=
  match p with
  | Return a => (w, Finished (Fulfilled a))
  | Raise e => (w, Finished (Rejected e))
  | Perform act next => let '(w', r) := act w in advance outcome (next r) w'
  | AwaitFetch req next =>
      ({| ui := ui w; trace := trace w ++ [Fetch req] |}, Suspended AtFetch (next outcome))
  | AwaitJson res next =>
      ({| ui := ui w; trace := trace w ++ [ReadJson res] |},
       Suspended (AtJson res) (next (json res)))
  end.

(** Runs a computation to its end, every await settling at once. *)
Fixpoint complete {A : Type} (outcome : Settled Response) (p : Async A) (w : World)
    : World * Settled A :=
  match p with
  | Return a => (w, Fulfilled a)
  | Raise e => (w, Rejected e)
  | Perform act next => let '(w', r) := act w in complete outcome (next r) w'
  | AwaitFetch req next =>
      complete outcome (next outcome) {| ui := ui w; trace := trace w ++ [Fetch req] |}
  | AwaitJson res next =>
      complete outcome (next (json res))
        {| ui := ui w; trace := trace w ++ [ReadJson res] |}
  end.

(** ** The page with runs in flight *)

(** A run suspended at an await. *)
Record InFlight : Type := mkInFlight {
  fetchOutcome : Settled Response;
  waitingAt : AwaitPoint;
  rest : Async unit
}.

Record Page : Type := mkPage {
  world : World;
  inflight : list InFlight        (* oldest first *)
}.

(** What happens to the page: the user acts on a control (a click on Run
    starts a run, which stays in flight), or the promise that the [i]-th run
    in flight waits for settles. *)
Inductive Action : Type :=
  | User (ev : Event)
  | Settle (i : nat).

Definition pageStep (p : Page) (a : Action) : Page :=
  match a with
  | User (ClickRun outcome) =>
      match advance outcome (handleRunAsync (ui (world p))) (world p) with
      | (w', Suspended at_ r) =>
          {| world := w'; inflight := inflight p ++ [mkInFlight outcome at_ r] |}
      | (w', Finished _) => {| world := w'; inflight := inflight p |}
      end
  | User ev => {| world := step (world p) ev; inflight := inflight p |}
  | Settle i =>
      match inflight p !! i with
      | None => p
      | Some run =>
          match advance (fetchOutcome run) (rest run) (world p) with
          | (w', Suspended at_ r) =>
              {| world := w';
                 inflight := <[i := mkInFlight (fetchOutcome run) at_ r]> (inflight p) |}
          | (w', Finished _) => {| world := w'; inflight := delete i (inflight p) |}
          end
      end
  end.

Definition initialPage : Page := {| world := initialWorld; inflight := [] |}.

Definition pageAfter (acts : list Action) : Page := foldl pageStep initialPage acts.

(** A session in which every run settles before the next event. *)
Definition oneAtATime (evs : list Event) : list Action :=
  evs ≫= (fun ev => if isClick ev then [User ev; Settle 0%nat; Settle 0%nat] else [User ev]).

(** The runs in flight that [handleRun] can leave behind. *)
Inductive suspendedRun : InFlight -> Prop :=
  | suspended_at_fetch (o : Settled Response) :
      suspendedRun (mkInFlight o AtFetch (afterFetch o))
  | suspended_at_json (o : Settled Response) (res : Response) :
      ok res = true -> suspendedRun (mkInFlight o (AtJson res) (afterJson res)).

Definition atFetch (run : InFlight) : bool :=
  match waitingAt run with
  | AtFetch => true
  | AtJson _ => false
  end.

(** Every body read so far followed an OK status, and the body reads and the
    runs still waiting for their fetch are no more than the requests sent. *)
Definition readsAccounted (p : Page) : Prop :=
  Forall (fun res => ok res = true) (bodyReads (trace (world p))) /\
  (length (bodyReads (trace (world p))) + length (List.filter atFetch (inflight p))
   <= length (requests (trace (world p))))%nat.

Definition isUserClick (a : Action) : bool :=
  match a with
  | User ev => isClick ev
  | Settle _ => false
  end.

(** The values entered into each control, oldest first. *)
Definition selectedStages (evs : list Event) : list Stage :=
  omap (fun ev => match ev with SelectStage v => Some v | _ => None end) evs.
Definition typedProjectIds (evs : list Event) : list string :=
  omap (fun ev => match ev with TypeProjectId v => Some v | _ => None end) evs.
Definition typedDatasets (evs : list Event) : list string :=
  omap (fun ev => match ev with TypeDataset v => Some v | _ => None end) evs.
Definition typedSourceVersions (evs : list Event) : list string :=
  omap (fun ev => match ev with TypeSourceVersion v => Some v | _ => None end) evs.
Definition typedTargetVersions (evs : list Event) : list string :=
  omap (fun ev => match ev with TypeTargetVersion v => Some v | _ => None end) evs.
Definition typedLimits (evs : list Event) : list NumberField :=
  omap (fun ev => match ev with TypeLimit v => Some v | _ => None end) evs.

(** What the user did, without the settlements. *)
Definition userEvents (acts : list Action) : list Event :=
  omap (fun a => match a with User ev => Some ev | Settle _ => None end) acts.

(** The state behind the six controls of the form. *)
Definition formValues (s : AppState)
    : Stage * string * string * string * string * JsNumber :=
  (stage s, projectId s, dataset s, sourceVersion s, targetVersion s, limit s).

(** The two last conditional children taken apart: what [{error && ...}]
    and [{result && ...}] contribute (lines 99-104). *)
Definition shownError (e : option string) : list Node :=
  match e with
  | Some m => if String.eqb m "" then [] else [ErrorP m]
  | None => []
  end.

Definition shownResult (r : Json) : list Node :=
  if truthy r then [ResultPre r]
  else match r with
       | JNum _ => [TextNode "0"]
       | _ => []
       end.

End App.

(* ===================================================================== *)
(** * The engine behind [POST /run]                                       *)
(* ===================================================================== *)

Module Engine.

(** ** Data model (design section 3) *)

(** Modelled from the spec: the closed set of four stages (sections 3 and 9).
    The repository has no source for the engine: Run Coordinator, Stage
    Executor, Dataset Accessor and Comparator are all taken from the design
    document. *)
Inductive Stage : Type :=
  | TranscriptGenerator
  | TranscriptValidator
  | SignalExtractor
  | ShadowValidator.

(** Modelled from the spec: the stage names of the run contract (glossary);
    any other name is an unknown stage value (section 4.1). *)
Definition parseStage (name : string) : option Stage :=
  if String.eqb name "TranscriptGenerator" then Some TranscriptGenerator
  else if String.eqb name "TranscriptValidator" then Some TranscriptValidator
  else if String.eqb name "SignalExtractor" then Some SignalExtractor
  else if String.eqb name "ShadowValidator" then Some ShadowValidator
  else None.

(** Modelled from the spec: the scope of a run, [{projectId, dataset}]. *)
Record Scope : Type := mkScope {
  projectId : string;
  dataset : string
}.

(** Modelled from the spec: RunConfig (section 3) as it crosses the boundary of
    section 6: the stage by name, the limit an integer that validation still
    has to find positive. *)
Record RunConfig : Type := mkConfig {
  stage : string;
  scope : Scope;
  sourceVersion : string;
  targetVersion : string;
  limit : Z
}.

(** Modelled from the spec: a scalar cell value; a number and a text never
    compare equal (section 4.4, exact comparison). *)
Inductive Value : Type :=
  | VNum (n : Z)
  | VText (s : string).

(** Modelled from the spec: exact comparison of values is decidable, and
    values can key an index. *)
#[global] Instance Value_eq_dec : EqDecision Value.
Proof. solve_decision. Defined.

#[global] Instance Value_countable : Countable Value.
Proof.
  refine (inj_countable'
            (fun v => match v with VNum n => inl n | VText s => inr s end)
            (fun x => match x with inl n => VNum n | inr s => VText s end) _).
  intros []; reflexivity.
Defined.

(** Modelled from the spec: Row, an ordered mapping from column name to
    scalar value (section 3). *)
Definition Row : Type := list (string * Value).

(** Modelled from the spec: the natural identifier of a row, its first column
    by convention (section 3); a row without columns has none. *)
Definition RowId : Type := option Value.

(** Modelled from the spec: the value of the first column (section 3). *)
Definition naturalId (r : Row) : RowId := snd <$> head r.

(** Modelled from the spec: column presence is explicit (section 9); [None]
    is an absent column. *)
Fixpoint cell (c : string) (r : Row) : option Value :=
  match r with
  | [] => None
  | (k, v) :: rest => if String.eqb k c then Some v else cell c rest
  end.

(** Modelled from the spec: the column names of a row, in column order. *)
Definition columns (r : Row) : list string := fst <$> r.

(** Modelled from the spec: the three kinds of Discrepancy (section 3). *)
Inductive Kind : Type := Missing | Extra | Mismatch.

#[global] Instance Kind_eq_dec : EqDecision Kind.
Proof. solve_decision. Defined.

(** Modelled from the spec: Discrepancy (section 3).  The column and the two
    values are optional: a Missing or Extra entry names the row only, as in
    the example of section 8, and a Mismatch may have a column on one side
    only. *)
Record Discrepancy : Type := mkDiscrepancy {
  rowId : RowId;
  column : option string;
  sourceValue : option Value;
  targetValue : option Value;
  kind : Kind
}.

(** Modelled from the spec: the status of a StageResult (section 3). *)
Inductive Status : Type := Success | PartialSuccess | Failed.

(** Modelled from the spec: StageResult (section 3). *)
Record StageResult : Type := mkResult {
  resultStage : Stage;
  rowsProcessed : Z;
  rowsWritten : Z;
  discrepancies : list Discrepancy;
  status : Status;
  message : string
}.

(** Modelled from the spec: the errors that reach the caller (section 7). *)
Inductive Error : Type := ConfigurationError | UnsupportedStageError.

(** Modelled from the spec: the errors of the Dataset Accessor (section 7);
    deadlines, hence TimeoutError, are outside the model. *)
Inductive AccessError : Type := NotFoundError | ConflictError.

(** ** Dataset Accessor (section 4.2), the in-memory table store *)

(** Modelled from the spec: a table version is identified by
    (projectId, dataset, version label). *)
Definition TableKey : Type := string * string * string.

(** Modelled from the spec: the key of a version within a scope. *)
Definition tableKey (sc : Scope) (version : string) : TableKey :=
  (projectId sc, dataset sc, version).

(** Modelled from the spec: the calls on the Dataset Accessor, each of which
    is I/O (sections 4.1 and 4.2). *)
Inductive IoEvent : Type :=
  | DidRead (key : TableKey) (limit : Z)
  | DidWrite (key : TableKey) (rows : list Row) (overwrite : bool).

(** Modelled from the spec: the store behind the Dataset Accessor, a
    key-value-of-rows store (section 2), with the log of the calls made. *)
Record Warehouse : Type := mkWarehouse {
  tables : gmap TableKey (list Row);
  io : list IoEvent           (* oldest first *)
}.

(** Modelled from the spec: a computation over the warehouse that may fail
    with an accessor error (sections 4.2 and 7). *)
Definition Access (A : Type) : Type := Warehouse -> Warehouse * (AccessError + A).

(** Modelled from the spec: sequencing of accessor calls; the first error ends
    the computation. *)
#[global] Instance Access_ret : MRet Access := fun A a w => (w, inr a).

#[global] Instance Access_bind : MBind Access := fun A B k m w =>
  match m w with
  | (w', inr a) => k a w'
  | (w', inl e) => (w', inl e)
  end.

(** Modelled from the spec: ReadVersion (section 4.2).  NotFoundError when the
    version does not exist; otherwise the rows in order, stopping after
    [limit] of them. *)
Definition ReadVersion (sc : Scope) (version : string) (limit : Z) : Access (list Row) :=
  fun w =>
    let w' := {| tables := tables w;
                 io := io w ++ [DidRead (tableKey sc version) limit] |} in
    match tables w !! tableKey sc version with
    | None => (w', inl NotFoundError)
    | Some rows => (w', inr (take (Z.to_nat limit) rows))
    end.

(** Modelled from the spec: WriteVersion (section 4.2).  ConflictError when the
    version exists and [overwrite] is false; otherwise the version holds
    [rows] and their number is returned. *)
Definition WriteVersion (sc : Scope) (version : string) (rows : list Row)
    (overwrite : bool) : Access Z :=
  fun w =>
    let attempted := io w ++ [DidWrite (tableKey sc version) rows overwrite] in
    match tables w !! tableKey sc version with
    | Some _ =>
        if overwrite
        then ({| tables := <[tableKey sc version := rows]> (tables w); io := attempted |},
              inr (Z.of_nat (length rows)))
        else ({| tables := tables w; io := attempted |}, inl ConflictError)
    | None =>
        ({| tables := <[tableKey sc version := rows]> (tables w); io := attempted |},
         inr (Z.of_nat (length rows)))
    end.

(** ** Comparator (section 4.4) *)

(** Modelled from the spec: the index of the target rows by natural
    identifier, filled in iteration order. *)
Definition buildIndex (targetRows : list Row) : gmap RowId Row :=
  foldl (fun idx r => <[naturalId r := r]> idx) ∅ targetRows.

(** Modelled from the spec: the columns present in either row, those of the
    source row first, each side in its column order. *)
Definition eitherColumns (s t : Row) : list string :=
  columns s ++ filter (fun c => c ∉ columns s) (columns t).

(** Modelled from the spec: the entry for a source row without target row. *)
Definition missing (id : RowId) : Discrepancy :=
  {| rowId := id; column := None; sourceValue := None; targetValue := None;
     kind := Missing |}.

(** Modelled from the spec: the entry for a target row without source row. *)
Definition extra (id : RowId) : Discrepancy :=
  {| rowId := id; column := None; sourceValue := None; targetValue := None;
     kind := Extra |}.

(** Modelled from the spec: one Mismatch for each column whose values differ,
    compared exactly. *)
Definition mismatches (s t : Row) : list Discrepancy :=
  omap (fun c =>
          if decide (cell c s = cell c t) then None
          else Some {| rowId := naturalId s; column := Some c;
                       sourceValue := cell c s; targetValue := cell c t;
                       kind := Mismatch |})
       (eitherColumns s t).

(** Modelled from the spec: what one source row contributes. *)
Definition sourcePass (idx : gmap RowId Row) (s : Row) : list Discrepancy :=
  match idx !! naturalId s with
  | None => [missing (naturalId s)]
  | Some t => mismatches s t
  end.

(** Modelled from the spec: Compare.  Source rows in iteration order (Missing,
    or the Mismatch entries in column order), then an Extra for each target
    row whose identifier no source row has, in target order. *)
Definition Compare (sourceRows targetRows : list Row) : list Discrepancy :=
  let idx := buildIndex targetRows in
  let sourceIds : gset RowId := list_to_set (naturalId <$> sourceRows) in
  (sourceRows ≫= sourcePass idx)
  ++ ((fun t => extra (naturalId t)) <$>
        filter (fun t => naturalId t ∉ sourceIds) targetRows).


(** The entries of one kind, in order. *)
Definition ofKind (k : Kind) (ds : list Discrepancy) : list Discrepancy :=
  filter (fun d => kind d = k) ds.

(** An entry read with source and target exchanged. *)
Definition swapRoles (d : Discrepancy) : Discrepancy :=
  {| rowId := rowId d;
     column := column d;
     sourceValue := targetValue d;
     targetValue := sourceValue d;
     kind := match kind d with
             | Missing => Extra
             | Extra => Missing
             | Mismatch => Mismatch
             end |}.

(** ** Stage Executor (section 4.3) *)

(** Modelled from the spec: what section 4.3 names without fixing: the
    transcript transformation ([None]: the row fails and is skipped), the
    label generated when no target version is given, whether the caller asked
    for an overwrite, the structural checks of TranscriptValidator (the
    columns of a source row that fail against the reference rows), the signal
    projection, and the status of a shadow run whose two sides share no row. *)
Class StageRules : Type := mkRules {
  transform : Row -> option Row;
  generatedLabel : RunConfig -> string;
  overwrite : bool;
  structuralCheck : list Row -> Row -> list string;
  extract : list Row -> list Row;
  noOverlapStatus : Status
}.

(** Modelled from the spec: the names of the accessor errors (section 7),
    used as the message of a failed result. *)
Definition accessErrorName (e : AccessError) : string :=
  match e with
  | NotFoundError => "NotFoundError"
  | ConflictError => "ConflictError"
  end.

(** Modelled from the spec: an accessor failure of a run becomes a structured
    result with status Failed (sections 4.1 and 7). *)
Definition failedResult (s : Stage) (e : AccessError) : StageResult :=
  {| resultStage := s; rowsProcessed := 0; rowsWritten := 0; discrepancies := [];
     status := Failed; message := accessErrorName e |}.

(** Modelled from the spec: a number of rows, as the integer of a result. *)
Definition rowCount (rows : list Row) : Z := Z.of_nat (length rows).

(** Modelled from the spec: [targetVersion], or the generated label when it is
    absent. *)
Definition outputLabel `{StageRules} (cfg : RunConfig) : string :=
  if String.eqb (targetVersion cfg) "" then generatedLabel cfg else targetVersion cfg.

(** Modelled from the spec: the status of a TranscriptGenerator run.  Success
    when no row is skipped; otherwise Failed when no row succeeded,
    PartialSuccess when some did. *)
Definition generatorStatus (succeeded skipped : nat) : Status :=
  match skipped, succeeded with
  | O, _ => Success
  | S _, O => Failed
  | S _, S _ => PartialSuccess
  end.

(** Modelled from the spec: TranscriptGenerator.  Reads up to [limit] rows of
    the source version, transforms them, writes those that transformed;
    rowsWritten is their number. *)
Definition runTranscriptGenerator `{StageRules} (cfg : RunConfig) : Access StageResult :=
  rows ← ReadVersion (scope cfg) (sourceVersion cfg) (limit cfg);
  let out := omap transform rows in
  written ← WriteVersion (scope cfg) (outputLabel cfg) out overwrite;
  mret {| resultStage := TranscriptGenerator;
          rowsProcessed := rowCount rows;
          rowsWritten := written;
          discrepancies := [];
          status := generatorStatus (length out) (length rows - length out);
          message := "" |}.

(** Modelled from the spec: the failed checks of one source row, each a
    Mismatch. *)
Definition checkFailures `{StageRules} (reference : list Row) (s : Row) : list Discrepancy :=
  (fun c => {| rowId := naturalId s; column := Some c; sourceValue := cell c s;
               targetValue := None; kind := Mismatch |})
  <$> structuralCheck reference s.

(** Modelled from the spec: TranscriptValidator.  The target rows serve as the
    reference; nothing is written; Success iff no check failed. *)
Definition runTranscriptValidator `{StageRules} (cfg : RunConfig) : Access StageResult :=
  rows ← ReadVersion (scope cfg) (sourceVersion cfg) (limit cfg);
  reference ← ReadVersion (scope cfg) (targetVersion cfg) (limit cfg);
  let found := rows ≫= checkFailures reference in
  mret {| resultStage := TranscriptValidator;
          rowsProcessed := rowCount rows;
          rowsWritten := 0;
          discrepancies := found;
          status := match found with [] => Success | _ :: _ => PartialSuccess end;
          message := "" |}.

(** Modelled from the spec: SignalExtractor.  Fewer rows written than
    processed is not an error. *)
Definition runSignalExtractor `{StageRules} (cfg : RunConfig) : Access StageResult :=
  rows ← ReadVersion (scope cfg) (sourceVersion cfg) (limit cfg);
  written ← WriteVersion (scope cfg) (targetVersion cfg) (extract rows) overwrite;
  mret {| resultStage := SignalExtractor;
          rowsProcessed := rowCount rows;
          rowsWritten := written;
          discrepancies := [];
          status := Success;
          message := "" |}.

(** Modelled from the spec: the two sides produced overlapping rows, that is,
    some source row has its identifier in the index of the target rows. *)
Definition overlapping (sourceRows targetRows : list Row) : bool :=
  bool_decide (Exists (fun s => is_Some (buildIndex targetRows !! naturalId s)) sourceRows).

(** Modelled from the spec: ShadowValidator.  Success iff Compare finds
    nothing; PartialSuccess when it finds something and the two sides
    overlap; nothing is written. *)
Definition runShadowValidator `{StageRules} (cfg : RunConfig) : Access StageResult :=
  production ← ReadVersion (scope cfg) (sourceVersion cfg) (limit cfg);
  shadow ← ReadVersion (scope cfg) (targetVersion cfg) (limit cfg);
  let found := Compare production shadow in
  mret {| resultStage := ShadowValidator;
          rowsProcessed := rowCount production;
          rowsWritten := 0;
          discrepancies := found;
          status := match found with
                    | [] => Success
                    | _ :: _ => if overlapping production shadow
                                then PartialSuccess else noOverlapStatus
                    end;
          message := "" |}.

(** Modelled from the spec: the executor variant of each stage. *)
Definition executor `{StageRules} (s : Stage) : RunConfig -> Access StageResult :=
  match s with
  | TranscriptGenerator => runTranscriptGenerator
  | TranscriptValidator => runTranscriptValidator
  | SignalExtractor => runSignalExtractor
  | ShadowValidator => runShadowValidator
  end.

(** Modelled from the spec: [Run(config, accessor)], with accessor errors
    caught at the executor boundary (section 7). *)
Definition Run `{StageRules} (s : Stage) (cfg : RunConfig) (w : Warehouse)
    : Warehouse * StageResult :=
  match executor s cfg w with
  | (w', inr r) => (w', r)
  | (w', inl e) => (w', failedResult s e)
  end.

(** ** Run Coordinator (section 4.1) *)

(** Modelled from the spec: the stages that need a target version. *)
Definition needsTarget (stageName : string) : bool :=
  String.eqb stageName "TranscriptValidator" || String.eqb stageName "ShadowValidator".

(** Modelled from the spec: [limit > 0]; [sourceVersion] non-empty; for the two
    validator stages [targetVersion] non-empty and distinct from
    [sourceVersion]. *)
Definition validate (cfg : RunConfig) : bool :=
  (0 <? limit cfg)
  && negb (String.eqb (sourceVersion cfg) "")
  && (if needsTarget (stage cfg)
      then negb (String.eqb (targetVersion cfg) "")
           && negb (String.eqb (targetVersion cfg) (sourceVersion cfg))
      else true).

(** Modelled from the spec: Execute.  Validation first, then the choice of the
    executor; the coordinator itself does no I/O. *)
Definition Execute `{StageRules} (cfg : RunConfig) (w : Warehouse)
    : Warehouse * (Error + StageResult) :=
  if validate cfg then
    match parseStage (stage cfg) with
    | None => (w, inl UnsupportedStageError)
    | Some s => let '(w', r) := Run s cfg w in (w', inr r)
    end
  else (w, inl ConfigurationError).

(** ** Sample data *)

(** The two table versions of the example in section 8. *)
Definition exampleSource : list Row :=
  [ [("id", VNum 1); ("amt", VNum 10)]; [("id", VNum 2); ("amt", VNum 20)] ].

Definition exampleTarget : list Row :=
  [ [("id", VNum 1); ("amt", VNum 15)]; [("id", VNum 3); ("amt", VNum 5)] ].

(** One choice of the open rules: rows pass through unchanged, nothing is
    overwritten. *)
Definition sampleRules : StageRules :=
  {| transform := fun r => Some r;
     generatedLabel := fun cfg => (sourceVersion cfg ++ "-out")%string;
     overwrite := false;
     structuralCheck := fun _ _ => [];
     extract := fun rows => rows;
     noOverlapStatus := Failed |}.

Definition sampleScope : Scope := {| projectId := "proj"; dataset := "sales" |}.

Definition warehouseOf (versions : list (string * list Row)) : Warehouse :=
  {| tables := list_to_map ((fun p => (tableKey sampleScope p.1, p.2)) <$> versions);
     io := [] |}.

Definition sampleConfig (stageName source target : string) (limit : Z) : RunConfig :=
  {| stage := stageName; scope := sampleScope;
     sourceVersion := source; targetVersion := target; limit := limit |}.

End Engine.

(* ===================================================================== *)
(** * Facts about the form                                                *)
(* ===================================================================== *)

Module AppFacts.
Import App.

(** Unfolds a run of [handleRun] down to the world it ends in. *)
Ltac run_handler :=
  unfold handleRun, tryCatchFinally, getState, setLoading, setError, setResult,
    fetch, readJson, throw, modifyState, mbind, Task_bind, mret, Task_ret;
  cbn.

(** The four ways a run can go, each with the world it ends in. *)
Lemma handleRun_rejected (e : JsError) (w : World) :
  handleRun (Rejected e) w =
    ({| ui := mkState (stage (ui w)) (projectId (ui w)) (dataset (ui w))
                (sourceVersion (ui w)) (targetVersion (ui w)) (limit (ui w))
                JNull false (Some (messageOrUnknown e));
        trace := trace w ++
                 [Fetch (mkRequest "/api/run" "POST"
                           [("Content-Type", "application/json")] (payload (ui w)))] |},
     Fulfilled tt).
Proof. run_handler. reflexivity. Qed.

Lemma handleRun_not_ok (res : Response) (w : World) :
  ok res = false ->
  handleRun (Fulfilled res) w =
    ({| ui := mkState (stage (ui w)) (projectId (ui w)) (dataset (ui w))
                (sourceVersion (ui w)) (targetVersion (ui w)) (limit (ui w))
                JNull false (Some (httpMessage (status res)));
        trace := trace w ++
                 [Fetch (mkRequest "/api/run" "POST"
                           [("Content-Type", "application/json")] (payload (ui w)))] |},
     Fulfilled tt).
Proof. intros Hok. run_handler. rewrite Hok. reflexivity. Qed.

Lemma handleRun_ok_data (res : Response) (data : Json) (w : World) :
  ok res = true -> json res = Fulfilled data ->
  handleRun (Fulfilled res) w =
    ({| ui := mkState (stage (ui w)) (projectId (ui w)) (dataset (ui w))
                (sourceVersion (ui w)) (targetVersion (ui w)) (limit (ui w))
                data false None;
        trace := (trace w ++
                  [Fetch (mkRequest "/api/run" "POST"
                            [("Content-Type", "application/json")] (payload (ui w)))])
                 ++ [ReadJson res] |},
     Fulfilled tt).
Proof. intros Hok Hjson. run_handler. rewrite Hok, Hjson. reflexivity. Qed.

Lemma handleRun_ok_unreadable (res : Response) (e : JsError) (w : World) :
  ok res = true -> json res = Rejected e ->
  handleRun (Fulfilled res) w =
    ({| ui := mkState (stage (ui w)) (projectId (ui w)) (dataset (ui w))
                (sourceVersion (ui w)) (targetVersion (ui w)) (limit (ui w))
                JNull false (Some (messageOrUnknown e));
        trace := (trace w ++
                  [Fetch (mkRequest "/api/run" "POST"
                            [("Content-Type", "application/json")] (payload (ui w)))])
                 ++ [ReadJson res] |},
     Fulfilled tt).
Proof. intros Hok Hjson. run_handler. rewrite Hok, Hjson. reflexivity. Qed.

(** Case analysis on how the environment answers a run. *)
Ltac by_outcome outcome :=
  let res := fresh "res" in
  let e := fresh "e" in
  let Hok := fresh "Hok" in
  let Hjson := fresh "Hjson" in
  destruct outcome as [res | e];
  [ destruct (ok res) eqn:Hok;
    [ destruct (json res) as [? | ?] eqn:Hjson;
      [ rewrite (handleRun_ok_data res _ _ Hok Hjson)
      | rewrite (handleRun_ok_unreadable res _ _ Hok Hjson) ]
    | rewrite (handleRun_not_ok res _ Hok) ]
  | rewrite handleRun_rejected ].

(** Every run sends exactly one request, built from the state at the click. *)
Lemma handleRun_requests (outcome : Settled Response) (w : World) :
  requests (trace (handleRun outcome w).1) =
    requests (trace w) ++
    [mkRequest "/api/run" "POST" [("Content-Type", "application/json")] (payload (ui w))].
Proof.
  unfold requests. by_outcome outcome; cbn [fst trace];
    rewrite ?omap_app; cbn; rewrite ?app_nil_r; reflexivity.
Qed.

Lemma setter_trace (ev : Event) (w : World) :
  isClick ev = false -> trace (step w ev) = trace w.
Proof. destruct ev; intros H; try discriminate H; reflexivity. Qed.

Lemma step_requests (ev : Event) (w : World) :
  requests (trace (step w ev)) =
    requests (trace w) ++
    (if isClick ev
     then [mkRequest "/api/run" "POST" [("Content-Type", "application/json")]
             (payload (ui w))]
     else []).
Proof.
  destruct ev; try (cbn [isClick]; rewrite app_nil_r; reflexivity).
  apply handleRun_requests.
Qed.

(** The requests of a whole session, from any starting world. *)
Lemma foldl_step_requests (evs : list Event) (w : World) :
  exists states : list AppState,
    length states = length (List.filter isClick evs) /\
    requests (trace (foldl step w evs)) =
      requests (trace w) ++
      ((fun s => mkRequest "/api/run" "POST" [("Content-Type", "application/json")]
                   (payload s)) <$> states).
Proof.
  revert w. induction evs as [| ev evs IH]; intros w.
  - exists []. cbn. rewrite app_nil_r. split; reflexivity.
  - cbn [foldl List.filter]. destruct (IH (step w ev)) as (states & Hlen & Hreq).
    rewrite Hreq, step_requests. destruct (isClick ev).
    + exists (ui w :: states). cbn. rewrite Hlen, <- app_assoc. split; reflexivity.
    + exists states. rewrite app_nil_r. split; [exact Hlen | reflexivity].
Qed.

Lemma session_requests (evs : list Event) :
  exists states : list AppState,
    length states = clicks evs /\
    requests (trace (session evs)) =
      (fun s => mkRequest "/api/run" "POST" [("Content-Type", "application/json")]
                  (payload s)) <$> states.
Proof.
  destruct (foldl_step_requests evs initialWorld) as (states & Hlen & Hreq).
  exists states. split; [exact Hlen | exact Hreq].
Qed.

Lemma stageText_option (s : Stage) : stageText s ∈ optionTexts.
Proof. unfold optionTexts. destruct s; cbn; set_solver. Qed.

(** ** The state behind the controls *)

(** Handled one event at a time, each control holds the last value entered
    into it, or its initial value. *)
Lemma session_form_values (evs : list Event) :
  formValues (ui (session evs)) =
    (default Transcript_Generator (last (selectedStages evs)),
     default "" (last (typedProjectIds evs)),
     default "" (last (typedDatasets evs)),
     default "" (last (typedSourceVersions evs)),
     default "" (last (typedTargetVersions evs)),
     default 100%Q (last (Number <$> typedLimits evs))).
Proof.
  induction evs as [| ev evs IH] using rev_ind; [reflexivity |].
  unfold session. rewrite foldl_snoc. fold (session evs).
  unfold selectedStages, typedProjectIds, typedDatasets, typedSourceVersions,
    typedTargetVersions, typedLimits in *.
  rewrite !omap_app, fmap_app.
  destruct ev as [v | v | v | v | v | v | outcome];
    cbn [omap list_omap fmap list_fmap]; rewrite ?app_nil_r, ?last_snoc.
  7: { unfold step, handler. by_outcome outcome; exact IH. }
  all: unfold formValues in *;
    cbn [step handler fst ui stage projectId dataset sourceVersion targetVersion limit
         setStage setProjectId setDataset setSourceVersion setTargetVersion setLimit
         modifyState from_option id];
    injection IH as H1 H2 H3 H4 H5 H6;
    rewrite <- ?H1, <- ?H2, <- ?H3, <- ?H4, <- ?H5, <- ?H6; reflexivity.
Qed.

(** The request of the click that follows [before] is built from the state
    [before] leaves. *)
Lemma request_at_click (before after : list Event) (o : Settled Response) :
  requests (trace (session (before ++ ClickRun o :: after))) !! clicks before =
    Some (mkRequest "/api/run" "POST" [("Content-Type", "application/json")]
            (payload (ui (session before)))).
Proof.
  unfold session. rewrite foldl_app. cbn [foldl]. fold (session before).
  destruct (foldl_step_requests after (step (session before) (ClickRun o)))
    as (later & _ & ->).
  rewrite step_requests. cbn [isClick].
  destruct (session_requests before) as (earlier & Hlen & Hreq).
  rewrite <- app_assoc. cbn [app]. apply list_lookup_middle.
  rewrite Hreq, length_fmap. symmetry. exact Hlen.
Qed.

(** ** The request of a run *)

(** C1, as the form has it.  In every session each click on Run issues exactly
    one request, a POST to the path /api/run whose JSON body has exactly the
    six members stage, projectId, dataset, sourceVersion, targetVersion and
    limit in this order.  The first five are strings, the values last entered
    in the form before the click; limit is a number, [Number] of the value
    last entered in the limit field (0 when that value is empty) or 100 when
    the field was never edited, on which the form puts no integrality
    condition. *)
Theorem run_requests_issued (evs before after : list Event) (o : Settled Response) :
  (length (requests (trace (session evs))) = clicks evs /\
   Forall issuedRun (requests (trace (session evs)))) /\
  (requests (trace (session (before ++ ClickRun o :: after))) !! clicks before =
     Some {| url := "/api/run";
             method := "POST";
             headers := [("Content-Type", "application/json")];
             body :=
               JObj [ ("stage",
                       JStr (stageText
                               (default Transcript_Generator
                                  (last (selectedStages before)))));
                      ("projectId", JStr (default "" (last (typedProjectIds before))));
                      ("dataset", JStr (default "" (last (typedDatasets before))));
                      ("sourceVersion",
                       JStr (default "" (last (typedSourceVersions before))));
                      ("targetVersion",
                       JStr (default "" (last (typedTargetVersions before))));
                      ("limit",
                       JNum (default 100%Q (last (Number <$> typedLimits before)))) ] |}
   /\ Number Blank = 0%Q).
Proof.
  split; [| split; [| reflexivity]].
  - destruct (session_requests evs) as (states & Hlen & ->). split.
    + rewrite length_fmap. exact Hlen.
    + apply Forall_fmap, Forall_forall. intros s _.
      repeat split. unfold payload. eauto 10.
  - rewrite request_at_click. unfold payload.
    pose proof (session_form_values before) as Hform. unfold formValues in Hform.
    injection Hform as -> -> -> -> -> ->. reflexivity.
Qed.

(** C1 as the document states it fails: after typing 1.5 into the limit field
    and clicking Run, the one request goes to /api/run, not /run, and its
    limit is 3/2, not an integer. *)
Lemma run_request_not_as_specified :
  let reqs := requests (trace (session
                [TypeLimit (Numeral 15 (-1));
                 ClickRun (Fulfilled {| status := 200%N; json := Fulfilled JNull |})])) in
  reqs = [ {| url := "/api/run"; method := "POST";
              headers := [("Content-Type", "application/json")];
              body := JObj [ ("stage", JStr "Transcript Generator");
                             ("projectId", JStr ""); ("dataset", JStr "");
                             ("sourceVersion", JStr ""); ("targetVersion", JStr "");
                             ("limit", JNum (3 # 2)) ] |} ]
  /\ isInteger (3 # 2) = false
  /\ ~ Forall specifiedRun reqs.
Proof.
  cbv zeta. split; [reflexivity |]. split; [reflexivity |].
  intros H. apply Forall_inv in H. destruct H as [Hurl _]. discriminate Hurl.
Qed.

(** C2, as the form has it.  The stage member of every request of every
    session is one of the four option texts of the select, which are spelled
    with a space: Transcript Generator, Transcript Validator, Signal
    Extractor, Shadow Validator. *)
Theorem run_requests_stage (evs : list Event) :
  Forall (fun req => exists name,
            field "stage" (body req) = Some (JStr name) /\ name ∈ optionTexts)
         (requests (trace (session evs))).
Proof.
  destruct (session_requests evs) as (states & _ & ->).
  apply Forall_fmap, Forall_forall. intros s _.
  exists (stageText (stage s)). split; [reflexivity | apply stageText_option].
Qed.

(** C2 as the document states it fails: a click on Run in the initial state
    sends the stage "Transcript Generator", which is none of
    TranscriptGenerator, TranscriptValidator, SignalExtractor,
    ShadowValidator. *)
Lemma run_request_stage_not_as_specified :
  let reqs := requests (trace (session [ClickRun (Rejected {| message := None |})])) in
  (field "stage" ∘ body) <$> reqs = [Some (JStr "Transcript Generator")]
  /\ ~ Forall (fun req => exists name,
                 field "stage" (body req) = Some (JStr name)
                 /\ name ∈ specifiedStageNames) reqs.
Proof.
  cbv zeta. split; [reflexivity |].
  intros H. apply Forall_inv in H. destruct H as (name & Hname & Hin).
  cbn in Hname. injection Hname as <-.
  unfold specifiedStageNames in Hin.
  rewrite !elem_of_cons, elem_of_nil in Hin. intuition discriminate.
Qed.

(** ** The flags after a run *)

(** C9.  Every execution of [handleRun] runs to completion and leaves
    [loading] false, however the fetch settles: fulfilled with an OK status
    (whether or not the body then parses), fulfilled with a non-OK status, or
    rejected. *)
Theorem handleRun_clears_loading (outcome : Settled Response) (w : World) :
  loading (ui (handleRun outcome w).1) = false /\
  (handleRun outcome w).2 = Fulfilled tt.
Proof. by_outcome outcome; split; reflexivity. Qed.

End AppFacts.

(* ===================================================================== *)
(** * Facts about the engine                                              *)
(* ===================================================================== *)

Module EngineFacts.
Import Engine.

(** ** The index *)

Section Index.

Implicit Types (rows : list Row) (idx : gmap RowId Row) (k : RowId) (r : Row).

Lemma fill_lookup_fresh rows idx k :
  k ∉ naturalId <$> rows ->
  foldl (fun m r => <[naturalId r := r]> m) idx rows !! k = idx !! k.
Proof.
  revert idx. induction rows as [| a rows IH]; intros idx Hk; [reflexivity |].
  rewrite fmap_cons, not_elem_of_cons in Hk. destruct Hk as [Hne Hk].
  cbn [foldl]. rewrite (IH _ Hk). apply lookup_insert_ne. congruence.
Qed.

Lemma fill_lookup_None rows idx k :
  foldl (fun m r => <[naturalId r := r]> m) idx rows !! k = None <->
  idx !! k = None /\ k ∉ naturalId <$> rows.
Proof.
  revert idx. induction rows as [| a rows IH]; intros idx.
  - cbn. rewrite elem_of_nil. tauto.
  - cbn [foldl]. rewrite IH, fmap_cons, not_elem_of_cons.
    destruct (decide (naturalId a = k)) as [-> | Hne].
    + rewrite lookup_insert_eq. split; [intros [? _]; discriminate | tauto].
    + rewrite lookup_insert_ne by exact Hne. split; [| tauto].
      intros [? ?]. repeat split; congruence.
Qed.

(** A row identifier is in the index exactly when a target row carries it. *)
Lemma buildIndex_None rows k :
  buildIndex rows !! k = None <-> k ∉ naturalId <$> rows.
Proof.
  unfold buildIndex. rewrite fill_lookup_None, lookup_empty. tauto.
Qed.




End Index.

(** ** Entries by kind *)

Section Kinds.

Implicit Types (rows : list Row) (idx : gmap RowId Row) (s t : Row).

Lemma ofKind_app k (ds1 ds2 : list Discrepancy) :
  ofKind k (ds1 ++ ds2) = ofKind k ds1 ++ ofKind k ds2.
Proof. apply filter_app. Qed.

Lemma ofKind_mismatches k s t : k <> Mismatch -> ofKind k (mismatches s t) = [].
Proof.
  intros Hk. unfold mismatches, ofKind.
  induction (eitherColumns s t) as [| c cs IH]; [reflexivity |].
  cbn [omap list_omap]. destruct (decide (cell c s = cell c t)); [exact IH |].
  rewrite filter_cons_False by (cbn; congruence). exact IH.
Qed.

(** Of a source pass, the Missing entries are those of the rows the index
    does not know, and no entry is an Extra. *)
Lemma ofKind_Missing_sourcePass idx rows :
  ofKind Missing (rows ≫= sourcePass idx) =
  (fun s => missing (naturalId s)) <$> filter (fun s => idx !! naturalId s = None) rows.
Proof.
  induction rows as [| s rows IH]; [reflexivity |].
  rewrite bind_cons, ofKind_app, IH. unfold sourcePass at 1.
  destruct (idx !! naturalId s) as [t |] eqn:Hs.
  - rewrite ofKind_mismatches by discriminate.
    rewrite filter_cons_False by (rewrite Hs; discriminate). reflexivity.
  - rewrite filter_cons_True by exact Hs. reflexivity.
Qed.

Lemma ofKind_Extra_sourcePass idx rows :
  ofKind Extra (rows ≫= sourcePass idx) = [].
Proof.
  induction rows as [| s rows IH]; [reflexivity |].
  rewrite bind_cons, ofKind_app, IH, app_nil_r. unfold sourcePass.
  destruct (idx !! naturalId s) as [t |].
  - apply ofKind_mismatches. discriminate.
  - reflexivity.
Qed.

Lemma ofKind_Extra_extras rows :
  ofKind Extra ((fun t => extra (naturalId t)) <$> rows) =
  (fun t => extra (naturalId t)) <$> rows.
Proof.
  induction rows as [| t rows IH]; [reflexivity |].
  rewrite fmap_cons. unfold ofKind in *.
  rewrite filter_cons_True by reflexivity. f_equal. exact IH.
Qed.

Lemma ofKind_Missing_extras rows :
  ofKind Missing ((fun t => extra (naturalId t)) <$> rows) = [].
Proof.
  induction rows as [| t rows IH]; [reflexivity |].
  rewrite fmap_cons. unfold ofKind in *.
  rewrite filter_cons_False by discriminate. exact IH.
Qed.

(** The two readings of "no row on the other side has this identifier". *)
Lemma unmatched_agree (A B : list Row) :
  filter (fun s => buildIndex B !! naturalId s = None) A =
  filter (fun s => naturalId s ∉ (list_to_set (naturalId <$> B) : gset RowId)) A.
Proof.
  apply list_filter_iff. intros s.
  rewrite buildIndex_None, elem_of_list_to_set. reflexivity.
Qed.

Lemma Missing_of_Compare (A B : list Row) :
  ofKind Missing (Compare A B) =
  (fun s => missing (naturalId s)) <$>
    filter (fun s => buildIndex B !! naturalId s = None) A.
Proof.
  unfold Compare. cbv zeta.
  rewrite ofKind_app, ofKind_Missing_sourcePass, ofKind_Missing_extras.
  apply app_nil_r.
Qed.

Lemma Extra_of_Compare (A B : list Row) :
  ofKind Extra (Compare A B) =
  (fun t => extra (naturalId t)) <$>
    filter (fun t => buildIndex A !! naturalId t = None) B.
Proof.
  unfold Compare. cbv zeta.
  rewrite ofKind_app, ofKind_Extra_sourcePass, ofKind_Extra_extras, unmatched_agree.
  reflexivity.
Qed.

End Kinds.

(** ** Comparator properties *)

(** The example of section 8, entry for entry. *)
Example Compare_example :
  Compare exampleSource exampleTarget =
    [ {| rowId := Some (VNum 1); column := Some "amt";
         sourceValue := Some (VNum 10); targetValue := Some (VNum 15);
         kind := Mismatch |};
      missing (Some (VNum 2));
      extra (Some (VNum 3)) ].
Proof. vm_compute. reflexivity. Qed.

(** C5.  For all row sequences A and B, the Missing entries of Compare(A,B)
    are, entry for entry and with the same row ids, the Extra entries of
    Compare(B,A) read with the roles exchanged, and the Extra entries of
    Compare(A,B) are in the same way the Missing entries of Compare(B,A). *)
Theorem Compare_role_swap (A B : list Row) :
  (swapRoles <$> ofKind Missing (Compare A B) = ofKind Extra (Compare B A) /\
   swapRoles <$> ofKind Extra (Compare A B) = ofKind Missing (Compare B A)) /\
  (rowId <$> ofKind Missing (Compare A B) = rowId <$> ofKind Extra (Compare B A) /\
   rowId <$> ofKind Extra (Compare A B) = rowId <$> ofKind Missing (Compare B A)).
Proof.
  rewrite !Missing_of_Compare, !Extra_of_Compare, <- !list_fmap_compose.
  repeat split.
Qed.







(** ** Reading *)

Lemma rowCount_take (L : Z) (rows : list Row) :
  0 <= L ->
  0 <= rowCount (take (Z.to_nat L) rows) <= L /\
  (L <= rowCount rows -> rowCount (take (Z.to_nat L) rows) = L).
Proof. intros HL. unfold rowCount. rewrite length_take. lia. Qed.

Lemma ReadVersion_found (sc : Scope) (version : string) (L : Z) (w : Warehouse)
    (rows : list Row) :
  tables w !! tableKey sc version = Some rows ->
  ReadVersion sc version L w =
    ({| tables := tables w; io := io w ++ [DidRead (tableKey sc version) L] |},
     inr (take (Z.to_nat L) rows)).
Proof. intros Hrows. unfold ReadVersion. rewrite Hrows. reflexivity. Qed.

Lemma ReadVersion_result (sc : Scope) (version : string) (L : Z) (w : Warehouse) :
  (ReadVersion sc version L w).2 =
    match tables w !! tableKey sc version with
    | None => inl NotFoundError
    | Some rows => inr (take (Z.to_nat L) rows)
    end.
Proof. unfold ReadVersion. destruct (tables w !! tableKey sc version); reflexivity. Qed.

(** ** Validation *)

Lemma validate_rejects (cfg : RunConfig) :
  limit cfg <= 0 \/ sourceVersion cfg = "" \/
  ((stage cfg = "TranscriptValidator" \/ stage cfg = "ShadowValidator") /\
   (targetVersion cfg = "" \/ targetVersion cfg = sourceVersion cfg)) ->
  validate cfg = false.
Proof.
  unfold validate, needsTarget.
  intros [Hlimit | [Hsource | [Hstage Htarget]]].
  - replace (0 <? limit cfg) with false by (symmetry; apply Z.ltb_ge; exact Hlimit).
    reflexivity.
  - rewrite Hsource. cbn. rewrite andb_false_r. reflexivity.
  - replace (String.eqb (stage cfg) "TranscriptValidator"
             || String.eqb (stage cfg) "ShadowValidator") with true
      by (destruct Hstage as [-> | ->]; reflexivity).
    destruct Htarget as [-> | ->].
    + cbn. rewrite !andb_false_r. reflexivity.
    + rewrite String.eqb_refl. cbn. rewrite !andb_false_r. reflexivity.
Qed.

Lemma validate_limit (cfg : RunConfig) : validate cfg = true -> 0 < limit cfg.
Proof.
  unfold validate. intros Hv.
  apply andb_prop in Hv as [Hv _]. apply andb_prop in Hv as [Hv _].
  apply Z.ltb_lt. exact Hv.
Qed.

(** ** The executors *)

(** Unfolds an executor down to the lookups in the table store. *)
Ltac run_executor :=
  unfold Run, executor, runTranscriptGenerator, runTranscriptValidator,
    runSignalExtractor, runShadowValidator, ReadVersion, WriteVersion,
    mbind, Access_bind, mret, Access_ret;
  cbn [tables io fst snd].

Lemma Run_rowsProcessed `{StageRules} (s : Stage) (cfg : RunConfig) (w : Warehouse) :
  0 <= limit cfg ->
  0 <= rowsProcessed (Run s cfg w).2 <= limit cfg.
Proof.
  intros HL. destruct s; run_executor;
    repeat (case_match; simplify_eq; cbn [tables io fst snd rowsProcessed failedResult] in * );
    try lia; apply rowCount_take; exact HL.
Qed.

Lemma Execute_valid `{StageRules} (cfg : RunConfig) (s : Stage) (w : Warehouse) :
  validate cfg = true -> parseStage (stage cfg) = Some s ->
  Execute cfg w = ((Run s cfg w).1, inr (Run s cfg w).2).
Proof.
  intros Hv Hs. unfold Execute. rewrite Hv, Hs. destruct (Run s cfg w). reflexivity.
Qed.

(** ** The coordinator *)

(** C3.  Execute answers ConfigurationError, with the warehouse and its I/O
    log exactly as they were, whenever limit is not greater than 0, or
    sourceVersion is empty, or the stage is TranscriptValidator or
    ShadowValidator and targetVersion is empty or equal to sourceVersion; in
    particular for stage TranscriptValidator with an empty targetVersion. *)
Theorem Execute_rejects_invalid `{StageRules} (cfg : RunConfig) (w : Warehouse) :
  (limit cfg <= 0 \/ sourceVersion cfg = "" \/
   ((stage cfg = "TranscriptValidator" \/ stage cfg = "ShadowValidator") /\
    (targetVersion cfg = "" \/ targetVersion cfg = sourceVersion cfg)) ->
   Execute cfg w = (w, inl ConfigurationError)) /\
  (stage cfg = "TranscriptValidator" -> targetVersion cfg = "" ->
   Execute cfg w = (w, inl ConfigurationError)).
Proof.
  assert (Hbad : validate cfg = false -> Execute cfg w = (w, inl ConfigurationError)).
  { intros Hv. unfold Execute. rewrite Hv. reflexivity. }
  split.
  - intros Hcase. apply Hbad, validate_rejects, Hcase.
  - intros Hstage Htarget. apply Hbad, validate_rejects. tauto.
Qed.

Lemma Execute_rejects_invalid_witness :
  let cfg := sampleConfig "TranscriptValidator" "v1" "" 10 in
  let w := warehouseOf [("v1", exampleSource)] in
  (stage cfg = "TranscriptValidator" /\ targetVersion cfg = "") /\
  @Execute sampleRules cfg w = (w, inl ConfigurationError).
Proof.
  cbv zeta. split; [split; reflexivity |].
  apply (proj2 (@Execute_rejects_invalid sampleRules
                  (sampleConfig "TranscriptValidator" "v1" "" 10)
                  (warehouseOf [("v1", exampleSource)])));
    reflexivity.
Defined.

(** C4.  For every valid configuration with limit L naming one of the four
    stages, Execute returns a StageResult whose rowsProcessed is at most L;
    and ReadVersion on an existing version yields its first [limit] rows, so
    never more than [limit], and exactly [limit] when the version holds at
    least that many. *)
Theorem rowsProcessed_within_limit `{StageRules} (cfg : RunConfig) (s : Stage)
    (w : Warehouse) (sc : Scope) (version : string) (L : Z) (rows : list Row) :
  (validate cfg = true -> parseStage (stage cfg) = Some s ->
   exists w' r, Execute cfg w = (w', inr r) /\ 0 <= rowsProcessed r <= limit cfg) /\
  (0 <= L -> tables w !! tableKey sc version = Some rows ->
   exists read, (ReadVersion sc version L w).2 = inr read /\
     read = take (Z.to_nat L) rows /\
     rowCount read <= L /\
     (L <= rowCount rows -> rowCount read = L)).
Proof.
  split.
  - intros Hv Hs. exists (Run s cfg w).1, (Run s cfg w).2.
    split; [apply Execute_valid; assumption |].
    apply Run_rowsProcessed. pose proof (validate_limit cfg Hv). lia.
  - intros HL Hrows. exists (take (Z.to_nat L) rows).
    rewrite ReadVersion_result, Hrows.
    destruct (rowCount_take L rows HL) as [[_ Hle] Hexact]. auto.
Qed.

Lemma rowsProcessed_within_limit_witness :
  let cfg := sampleConfig "SignalExtractor" "v1" "v2" 1 in
  let w := warehouseOf [("v1", exampleSource)] in
  (validate cfg = true /\ parseStage (stage cfg) = Some SignalExtractor /\
   (exists w' r, @Execute sampleRules cfg w = (w', inr r)
                 /\ 0 <= rowsProcessed r <= limit cfg)) /\
  (0 <= 1 /\ tables w !! tableKey sampleScope "v1" = Some exampleSource /\
   exists read, (ReadVersion sampleScope "v1" 1 w).2 = inr read /\
     read = take (Z.to_nat 1) exampleSource /\
     rowCount read <= 1 /\
     (1 <= rowCount exampleSource -> rowCount read = 1)).
Proof.
  cbv zeta.
  pose proof (@rowsProcessed_within_limit sampleRules
                (sampleConfig "SignalExtractor" "v1" "v2" 1) SignalExtractor
                (warehouseOf [("v1", exampleSource)]) sampleScope "v1" 1 exampleSource)
    as [Hrun Hread].
  split.
  - split; [reflexivity |]. split; [reflexivity |]. apply Hrun; reflexivity.
  - split; [lia |]. split; [reflexivity |]. apply Hread; [lia | reflexivity].
Defined.

(** ** Shadow validation of identical versions *)



(** ** A generator run with limit 0 *)



End EngineFacts.

(* ===================================================================== *)
(** * Where the two meet                                                  *)
(* ===================================================================== *)

(** The stage the form sends is, for the engine, an unknown stage name. *)
Lemma form_stage_unknown_to_engine (s : App.Stage) :
  Engine.parseStage (App.stageText s) = None.
Proof. destruct s; reflexivity. Qed.

(* ===================================================================== *)
(** * Facts about the page with runs in flight                            *)
(* ===================================================================== *)

Module PageFacts.
Import App.

(** ** handleRun between its awaits *)

(** From the click to the first await: the flags are reset and the request
    is out. *)
Lemma advance_handleRun (o : Settled Response) (s : AppState) (w : World) :
  advance o (handleRunAsync s) w =
    ({| ui := mkState (stage (ui w)) (projectId (ui w)) (dataset (ui w))
                (sourceVersion (ui w)) (targetVersion (ui w)) (limit (ui w))
                JNull true None;
        trace := trace w ++
                 [Fetch (mkRequest "/api/run" "POST"
                           [("Content-Type", "application/json")] (payload s))] |},
     Suspended AtFetch (afterFetch o)).
Proof. reflexivity. Qed.

(** The catch clause followed by the finally clause. *)
Lemma advance_afterFetch_rejected (o : Settled Response) (e : JsError) (w : World) :
  advance o (afterFetch (Rejected e)) w =
    ({| ui := mkState (stage (ui w)) (projectId (ui w)) (dataset (ui w))
                (sourceVersion (ui w)) (targetVersion (ui w)) (limit (ui w))
                (result (ui w)) false (Some (messageOrUnknown e));
        trace := trace w |},
     Finished (Fulfilled tt)).
Proof. reflexivity. Qed.

Lemma advance_afterFetch_not_ok (o : Settled Response) (res : Response) (w : World) :
  ok res = false ->
  advance o (afterFetch (Fulfilled res)) w =
    ({| ui := mkState (stage (ui w)) (projectId (ui w)) (dataset (ui w))
                (sourceVersion (ui w)) (targetVersion (ui w)) (limit (ui w))
                (result (ui w)) false (Some (httpMessage (status res)));
        trace := trace w |},
     Finished (Fulfilled tt)).
Proof.
  intros Hok. unfold afterFetch, tryCatchFinallyAsync, settled, mbind, Async_bind.
  cbn [bindAsync]. rewrite Hok. reflexivity.
Qed.

Lemma advance_afterFetch_ok (o : Settled Response) (res : Response) (w : World) :
  ok res = true ->
  advance o (afterFetch (Fulfilled res)) w =
    ({| ui := ui w; trace := trace w ++ [ReadJson res] |},
     Suspended (AtJson res) (afterJson res)).
Proof.
  intros Hok. unfold afterFetch, tryCatchFinallyAsync, settled, mbind, Async_bind.
  cbn [bindAsync]. rewrite Hok. reflexivity.
Qed.

Lemma advance_afterJson_data (o : Settled Response) (res : Response) (data : Json)
    (w : World) :
  json res = Fulfilled data ->
  advance o (afterJson res) w =
    ({| ui := mkState (stage (ui w)) (projectId (ui w)) (dataset (ui w))
                (sourceVersion (ui w)) (targetVersion (ui w)) (limit (ui w))
                data false (error (ui w));
        trace := trace w |},
     Finished (Fulfilled tt)).
Proof. intros Hjson. unfold afterJson. rewrite Hjson. reflexivity. Qed.

Lemma advance_afterJson_rejected (o : Settled Response) (res : Response) (e : JsError)
    (w : World) :
  json res = Rejected e ->
  advance o (afterJson res) w =
    ({| ui := mkState (stage (ui w)) (projectId (ui w)) (dataset (ui w))
                (sourceVersion (ui w)) (targetVersion (ui w)) (limit (ui w))
                (result (ui w)) false (Some (messageOrUnknown e));
        trace := trace w |},
     Finished (Fulfilled tt)).
Proof. intros Hjson. unfold afterJson. rewrite Hjson. reflexivity. Qed.

(** ** One step of the page *)

Lemma click_step (p : Page) (o : Settled Response) :
  pageStep p (User (ClickRun o)) =
    {| world :=
         {| ui := mkState (stage (ui (world p))) (projectId (ui (world p)))
                    (dataset (ui (world p))) (sourceVersion (ui (world p)))
                    (targetVersion (ui (world p))) (limit (ui (world p)))
                    JNull true None;
            trace := trace (world p) ++
                     [Fetch (mkRequest "/api/run" "POST"
                               [("Content-Type", "application/json")]
                               (payload (ui (world p))))] |};
       inflight := inflight p ++ [mkInFlight o AtFetch (afterFetch o)] |}.
Proof. unfold pageStep. rewrite advance_handleRun. reflexivity. Qed.

Lemma edit_step (p : Page) (ev : Event) :
  isClick ev = false ->
  pageStep p (User ev) = {| world := step (world p) ev; inflight := inflight p |}.
Proof. destruct ev; intros H; try discriminate H; reflexivity. Qed.

Lemma settle_nothing (p : Page) (i : nat) :
  inflight p !! i = None -> pageStep p (Settle i) = p.
Proof. intros H. unfold pageStep. rewrite H. reflexivity. Qed.

(** Splits the settling of a run in flight into the five ways it can go:
    the fetch answers OK, answers non-OK, or rejects; the body parses, or
    does not. *)
Ltac settle_run Hlook Hshape :=
  let o := fresh "o" in
  let res := fresh "res" in
  let e := fresh "e" in
  let data := fresh "data" in
  let Hok := fresh "Hok" in
  let Hjson := fresh "Hjson" in
  unfold pageStep; cbn [inflight world]; rewrite ?Hlook;
  destruct Hshape as [o | o res Hok]; cbn [fetchOutcome rest];
  [ destruct o as [res | e];
    [ destruct (ok res) eqn:Hok;
      [ rewrite !(advance_afterFetch_ok _ _ _ Hok)
      | rewrite !(advance_afterFetch_not_ok _ _ _ Hok) ]
    | rewrite !advance_afterFetch_rejected ]
  | destruct (json res) as [data | e] eqn:Hjson;
    [ rewrite !(advance_afterJson_data _ _ _ _ Hjson)
    | rewrite !(advance_afterJson_rejected _ _ _ _ Hjson) ] ].

(** Whatever happens, the runs in flight are runs of [handleRun] suspended at
    one of its two awaits. *)
Lemma pageStep_suspended (p : Page) (a : Action) :
  Forall suspendedRun (inflight p) -> Forall suspendedRun (inflight (pageStep p a)).
Proof.
  intros Hall. destruct a as [ev | i].
  - destruct (isClick ev) eqn:Hclick.
    + destruct ev; try discriminate Hclick. rewrite click_step. cbn [inflight].
      apply Forall_app. split; [exact Hall |]. repeat constructor.
    + rewrite (edit_step _ _ Hclick). exact Hall.
  - destruct (inflight p !! i) as [run |] eqn:Hlook;
      [| rewrite (settle_nothing _ _ Hlook); exact Hall].
    pose proof (Forall_lookup_1 _ _ _ _ Hall Hlook) as Hshape.
    settle_run Hlook Hshape; cbn [inflight];
      first [ apply Forall_delete; exact Hall
            | apply Forall_insert; [exact Hall | constructor; assumption] ].
Qed.

Lemma foldl_pageStep_suspended (acts : list Action) (p : Page) :
  Forall suspendedRun (inflight p) ->
  Forall suspendedRun (inflight (foldl pageStep p acts)).
Proof.
  revert p. induction acts as [| a acts IH]; intros p Hall; [exact Hall |].
  cbn [foldl]. apply IH, pageStep_suspended, Hall.
Qed.

Lemma pageAfter_suspended (acts : list Action) :
  Forall suspendedRun (inflight (pageAfter acts)).
Proof. apply foldl_pageStep_suspended. constructor. Qed.

(** ** Runs that do not overlap *)

Lemma click_then_settle (w : World) (o : Settled Response) :
  foldl pageStep {| world := w; inflight := [] |}
        [User (ClickRun o); Settle 0%nat; Settle 0%nat] =
    {| world := step w (ClickRun o); inflight := [] |}.
Proof.
  cbn [foldl]. rewrite click_step. cbn [world inflight ui trace app].
  unfold step, handler.
  destruct o as [res | e]; [destruct (ok res) eqn:Hok;
    [destruct (json res) as [data | e] eqn:Hjson |] |].
  - rewrite (AppFacts.handleRun_ok_data res data w Hok Hjson).
    unfold pageStep at 2. cbn [inflight lookup list_lookup fetchOutcome rest world].
    rewrite (advance_afterFetch_ok _ _ _ Hok). cbn [insert list_insert].
    unfold pageStep. cbn [inflight lookup list_lookup fetchOutcome rest world].
    rewrite (advance_afterJson_data _ _ _ _ Hjson). reflexivity.
  - rewrite (AppFacts.handleRun_ok_unreadable res e w Hok Hjson).
    unfold pageStep at 2. cbn [inflight lookup list_lookup fetchOutcome rest world].
    rewrite (advance_afterFetch_ok _ _ _ Hok). cbn [insert list_insert].
    unfold pageStep. cbn [inflight lookup list_lookup fetchOutcome rest world].
    rewrite (advance_afterJson_rejected _ _ _ _ Hjson). reflexivity.
  - rewrite (AppFacts.handleRun_not_ok res w Hok).
    unfold pageStep at 2. cbn [inflight lookup list_lookup fetchOutcome rest world].
    rewrite (advance_afterFetch_not_ok _ _ _ Hok). reflexivity.
  - rewrite AppFacts.handleRun_rejected. reflexivity.
Qed.

Lemma one_at_a_time_from (evs : list Event) (w : World) :
  foldl pageStep {| world := w; inflight := [] |} (oneAtATime evs) =
    {| world := foldl step w evs; inflight := [] |}.
Proof.
  revert w. induction evs as [| ev evs IH]; intros w; [reflexivity |].
  unfold oneAtATime. rewrite bind_cons, foldl_app. fold (oneAtATime evs).
  destruct (isClick ev) eqn:Hclick.
  - destruct ev; try discriminate Hclick. rewrite click_then_settle. apply IH.
  - cbn [foldl]. rewrite (edit_step _ _ Hclick). apply IH.
Qed.

(** X1.  When every run settles before the next event, the page passes
    through the awaits of [handleRun] and ends, with no run in flight, in the
    very world that handling each event to completion gives. *)
Theorem one_at_a_time_is_session (evs : list Event) :
  pageAfter (oneAtATime evs) = {| world := session evs; inflight := [] |}.
Proof. apply one_at_a_time_from. Qed.

(** ** Runs that overlap *)

(** X2.  Right after a click on Run, whatever the page showed before and
    whatever is in flight, the page shows "Running..." and nothing else, the
    request built from the state at the click is out, and one more run is in
    flight. *)
Theorem click_shows_running (p : Page) (o : Settled Response) :
  conditionalChildren (ui (world (pageStep p (User (ClickRun o))))) = [RunningP] /\
  requests (trace (world (pageStep p (User (ClickRun o))))) =
    requests (trace (world p)) ++
    [mkRequest "/api/run" "POST" [("Content-Type", "application/json")]
       (payload (ui (world p)))] /\
  length (inflight (pageStep p (User (ClickRun o)))) = S (length (inflight p)).
Proof.
  rewrite click_step. cbn [world ui trace inflight]. repeat split.
  - unfold requests. rewrite omap_app. reflexivity.
  - rewrite length_app. cbn. lia.
Qed.

(** X3.  Editing a control while runs are in flight and the settling of a
    run commute: the edit is not undone by the run, and the run is not
    affected by the edit. *)
Theorem edit_commutes_with_settle (acts : list Action) (ev : Event) (i : nat) :
  isClick ev = false ->
  pageStep (pageStep (pageAfter acts) (User ev)) (Settle i) =
  pageStep (pageStep (pageAfter acts) (Settle i)) (User ev).
Proof.
  intros Hedit. pose proof (pageAfter_suspended acts) as Hall.
  set (p := pageAfter acts) in *.
  rewrite !(edit_step _ _ Hedit).
  destruct (inflight p !! i) as [run |] eqn:Hlook.
  - pose proof (Forall_lookup_1 _ _ _ _ Hall Hlook) as Hshape.
    settle_run Hlook Hshape; destruct ev; try discriminate Hedit; reflexivity.
  - rewrite (settle_nothing p i Hlook).
    apply settle_nothing. exact Hlook.
Qed.

Lemma edit_commutes_with_settle_witness :
  let acts := [User (ClickRun (Fulfilled {| status := 200%N;
                                            json := Fulfilled (JStr "done") |}))] in
  isClick (TypeDataset "sales") = false /\
  pageStep (pageStep (pageAfter acts) (User (TypeDataset "sales"))) (Settle 0%nat) =
  pageStep (pageStep (pageAfter acts) (Settle 0%nat)) (User (TypeDataset "sales")).
Proof.
  cbv zeta. split; [reflexivity |].
  apply (edit_commutes_with_settle
           [User (ClickRun (Fulfilled {| status := 200%N;
                                         json := Fulfilled (JStr "done") |}))]
           (TypeDataset "sales") 0%nat).
  reflexivity.
Defined.

Lemma requests_snoc_read (t : list Effect) (res : Response) :
  requests (t ++ [ReadJson res]) = requests t.
Proof. unfold requests. rewrite omap_app. cbn. apply app_nil_r. Qed.

Lemma bodyReads_snoc_read (t : list Effect) (res : Response) :
  bodyReads (t ++ [ReadJson res]) = bodyReads t ++ [res].
Proof. unfold bodyReads. rewrite omap_app. reflexivity. Qed.

Lemma bodyReads_snoc_fetch (t : list Effect) (req : Request) :
  bodyReads (t ++ [Fetch req]) = bodyReads t.
Proof. unfold bodyReads. rewrite omap_app. cbn. apply app_nil_r. Qed.

(** Only a click sends a request. *)
Lemma pageStep_requests (p : Page) (a : Action) :
  Forall suspendedRun (inflight p) ->
  requests (trace (world (pageStep p a))) =
    requests (trace (world p)) ++
    (if isUserClick a
     then [mkRequest "/api/run" "POST" [("Content-Type", "application/json")]
             (payload (ui (world p)))]
     else []).
Proof.
  intros Hall. destruct a as [ev | i]; cbn [isUserClick].
  - destruct (isClick ev) eqn:Hclick.
    + destruct ev; try discriminate Hclick. rewrite click_step. cbn [world trace].
      unfold requests. rewrite omap_app. reflexivity.
    + rewrite (edit_step _ _ Hclick). cbn [world].
      rewrite (AppFacts.setter_trace _ _ Hclick). symmetry. apply app_nil_r.
  - rewrite app_nil_r.
    destruct (inflight p !! i) as [run |] eqn:Hlook;
      [| rewrite (settle_nothing _ _ Hlook); reflexivity].
    pose proof (Forall_lookup_1 _ _ _ _ Hall Hlook) as Hshape.
    settle_run Hlook Hshape; cbn [world trace]; rewrite ?requests_snoc_read; reflexivity.
Qed.

Lemma foldl_pageStep_requests (acts : list Action) (p : Page) :
  Forall suspendedRun (inflight p) ->
  exists states : list AppState,
    length states = length (List.filter isUserClick acts) /\
    requests (trace (world (foldl pageStep p acts))) =
      requests (trace (world p)) ++
      ((fun s => mkRequest "/api/run" "POST" [("Content-Type", "application/json")]
                   (payload s)) <$> states).
Proof.
  revert p. induction acts as [| a acts IH]; intros p Hall.
  - exists []. cbn. rewrite app_nil_r. split; reflexivity.
  - cbn [foldl List.filter].
    destruct (IH (pageStep p a) (pageStep_suspended p a Hall)) as (states & Hlen & Hreq).
    rewrite Hreq, (pageStep_requests p a Hall). destruct (isUserClick a).
    + exists (ui (world p) :: states). cbn. rewrite Hlen, <- app_assoc.
      split; reflexivity.
    + exists states. rewrite app_nil_r. split; [exact Hlen | reflexivity].
Qed.

(** X4.  However clicks, edits and settlements interleave, every click on Run
    sends exactly one request, a POST to /api/run with the six-member body,
    also while earlier runs are still in flight; nothing else sends one. *)
Theorem every_click_sends_a_request (acts : list Action) :
  length (requests (trace (world (pageAfter acts)))) =
    length (List.filter isUserClick acts) /\
  Forall issuedRun (requests (trace (world (pageAfter acts)))).
Proof.
  destruct (foldl_pageStep_requests acts initialPage) as (states & Hlen & Hreq);
    [constructor |].
  unfold pageAfter. rewrite Hreq. cbn [initialPage world initialWorld trace requests
                                       omap list_omap app].
  split.
  - rewrite length_fmap. exact Hlen.
  - apply Forall_fmap, Forall_forall. intros s _.
    repeat split. unfold payload. eauto 10.
Qed.

(** Counting the runs that still wait for their fetch. *)
Lemma atFetch_delete (l : list InFlight) (i : nat) (run : InFlight) :
  l !! i = Some run ->
  (length (List.filter atFetch l) =
   length (List.filter atFetch (delete i l)) + (if atFetch run then 1 else 0))%nat.
Proof.
  revert i. induction l as [| x l IH]; intros [| i] Hlook; try discriminate Hlook.
  - injection Hlook as ->. change (delete 0%nat (run :: l)) with l.
    cbn [List.filter]. destruct (atFetch run); cbn [length]; lia.
  - change (l !! i = Some run) in Hlook.
    change (delete (S i) (x :: l)) with (x :: delete i l).
    cbn [List.filter]. specialize (IH i Hlook).
    destruct (atFetch run), (atFetch x); cbn [length]; lia.
Qed.

Lemma atFetch_insert (l : list InFlight) (i : nat) (run run' : InFlight) :
  l !! i = Some run ->
  (length (List.filter atFetch (<[i := run']> l)) + (if atFetch run then 1 else 0) =
   length (List.filter atFetch l) + (if atFetch run' then 1 else 0))%nat.
Proof.
  revert i. induction l as [| x l IH]; intros [| i] Hlook; try discriminate Hlook.
  - injection Hlook as ->. change (<[0%nat := run']> (run :: l)) with (run' :: l).
    cbn [List.filter]. destruct (atFetch run), (atFetch run'); cbn [length]; lia.
  - change (l !! i = Some run) in Hlook.
    change (<[S i := run']> (x :: l)) with (x :: <[i := run']> l).
    cbn [List.filter]. specialize (IH i Hlook).
    destruct (atFetch run), (atFetch run'), (atFetch x); cbn [length]; lia.
Qed.

Lemma pageStep_readsAccounted (p : Page) (a : Action) :
  Forall suspendedRun (inflight p) -> readsAccounted p -> readsAccounted (pageStep p a).
Proof.
  intros Hall [Hok Hcount]. unfold readsAccounted.
  rewrite (pageStep_requests p a Hall). destruct a as [ev | i]; cbn [isUserClick].
  - destruct (isClick ev) eqn:Hclick.
    + destruct ev; try discriminate Hclick. rewrite click_step.
      cbn [world trace inflight]. rewrite bodyReads_snoc_fetch, List.filter_app, !length_app.
      cbn. split; [exact Hok | lia].
    + rewrite (edit_step _ _ Hclick). cbn [world inflight].
      rewrite (AppFacts.setter_trace _ _ Hclick), app_nil_r. split; assumption.
  - rewrite app_nil_r.
    destruct (inflight p !! i) as [run |] eqn:Hlook;
      [| rewrite (settle_nothing _ _ Hlook); split; assumption].
    pose proof (Forall_lookup_1 _ _ _ _ Hall Hlook) as Hshape.
    pose proof (atFetch_delete _ _ _ Hlook) as Hdel.
    settle_run Hlook Hshape; cbn [world trace inflight];
      rewrite ?bodyReads_snoc_read, ?length_app; cbn [length];
      try (split; [exact Hok | cbn [atFetch waitingAt] in Hdel; lia]).
    pose proof (atFetch_insert _ _ _ (mkInFlight (Fulfilled res) (AtJson res) (afterJson res))
                  Hlook) as Hins.
    cbn [atFetch waitingAt] in Hins. split; [| lia].
    apply Forall_app. split; [exact Hok |]. repeat constructor. exact Hok0.
Qed.

Lemma foldl_pageStep_readsAccounted (acts : list Action) (p : Page) :
  Forall suspendedRun (inflight p) -> readsAccounted p ->
  readsAccounted (foldl pageStep p acts).
Proof.
  revert p. induction acts as [| a acts IH]; intros p Hall Hinv; [exact Hinv |].
  cbn [foldl]. apply IH; [apply pageStep_suspended | apply pageStep_readsAccounted];
    assumption.
Qed.

(** X5.  However things interleave, a response body is read only after a
    response with an OK status, and there are never more body reads than
    requests sent. *)
Theorem body_read_only_when_ok (acts : list Action) :
  Forall (fun res => ok res = true) (bodyReads (trace (world (pageAfter acts)))) /\
  (length (bodyReads (trace (world (pageAfter acts))))
   <= length (requests (trace (world (pageAfter acts)))))%nat.
Proof.
  destruct (foldl_pageStep_readsAccounted acts initialPage) as [Hok Hcount].
  - constructor.
  - split; [constructor | cbn; lia].
  - fold (pageAfter acts) in Hok, Hcount. split; [exact Hok | lia].
Qed.

(** Settling the run that stands behind [before] in the list. *)
Lemma settle_at (w : World) (before after : list InFlight) (run : InFlight) :
  pageStep {| world := w; inflight := before ++ run :: after |} (Settle (length before)) =
    match advance (fetchOutcome run) (rest run) w with
    | (w', Suspended at_ r) =>
        {| world := w';
           inflight := before ++ mkInFlight (fetchOutcome run) at_ r :: after |}
    | (w', Finished _) => {| world := w'; inflight := before ++ after |}
    end.
Proof.
  unfold pageStep. cbn [inflight world].
  rewrite (list_lookup_middle before after run _ eq_refl).
  destruct (advance (fetchOutcome run) (rest run) w) as [w' [r | at_ r]].
  - rewrite delete_middle. reflexivity.
  - replace (length before) with (length before + 0)%nat by lia.
    rewrite insert_app_r. reflexivity.
Qed.

(** X6.  [loading] is one flag for all runs: whenever a run in flight comes to
    its end, [loading] becomes false, whatever other runs are still in
    flight. *)
Theorem run_end_clears_loading (acts : list Action) (i : nat) :
  (length (inflight (pageStep (pageAfter acts) (Settle i)))
   < length (inflight (pageAfter acts)))%nat ->
  loading (ui (world (pageStep (pageAfter acts) (Settle i)))) = false /\
  inflight (pageStep (pageAfter acts) (Settle i)) = delete i (inflight (pageAfter acts)).
Proof.
  pose proof (pageAfter_suspended acts) as Hall.
  set (p := pageAfter acts) in *.
  destruct (inflight p !! i) as [run |] eqn:Hlook.
  - pose proof (Forall_lookup_1 _ _ _ _ Hall Hlook) as Hshape.
    settle_run Hlook Hshape; cbn [inflight world ui loading]; intros Hless;
      try (split; reflexivity).
    rewrite length_insert in Hless. lia.
  - rewrite (settle_nothing p i Hlook). lia.
Qed.

Lemma run_end_clears_loading_witness :
  let acts := [User (ClickRun (Rejected {| message := Some "Failed to fetch" |}));
               User (ClickRun (Fulfilled {| status := 200%N;
                                            json := Fulfilled (JStr "done") |}))] in
  (length (inflight (pageStep (pageAfter acts) (Settle 0%nat)))
   < length (inflight (pageAfter acts)))%nat /\
  (loading (ui (world (pageStep (pageAfter acts) (Settle 0%nat)))) = false /\
   inflight (pageStep (pageAfter acts) (Settle 0%nat)) =
     delete 0%nat (inflight (pageAfter acts))) /\
  length (inflight (pageStep (pageAfter acts) (Settle 0%nat))) = 1%nat.
Proof.
  cbv zeta.
  assert (Hless : (length (inflight (pageStep (pageAfter
            [User (ClickRun (Rejected {| message := Some "Failed to fetch" |}));
             User (ClickRun (Fulfilled {| status := 200%N;
                                          json := Fulfilled (JStr "done") |}))])
            (Settle 0%nat)))
          < length (inflight (pageAfter
            [User (ClickRun (Rejected {| message := Some "Failed to fetch" |}));
             User (ClickRun (Fulfilled {| status := 200%N;
                                          json := Fulfilled (JStr "done") |}))])))%nat).
  { cbn. lia. }
  split; [exact Hless |]. split; [| reflexivity].
  apply (run_end_clears_loading
           [User (ClickRun (Rejected {| message := Some "Failed to fetch" |}));
            User (ClickRun (Fulfilled {| status := 200%N;
                                         json := Fulfilled (JStr "done") |}))]
           0%nat Hless).
Defined.

(** X7.  Nothing clears [error] when a run succeeds, only the start of a run
    does.  So when two runs overlap, the first to settle failing and the
    second answering OK with a body that parses, the page ends with the error
    of the first run set beside the result of the second. *)
Theorem stale_error_beside_result (p : Page) (e : JsError) (res : Response)
    (data : Json) :
  ok res = true -> json res = Fulfilled data ->
  let n := length (inflight p) in
  let p' := foldl pageStep p
              [User (ClickRun (Rejected e)); User (ClickRun (Fulfilled res));
               Settle n; Settle n; Settle n] in
  error (ui (world p')) = Some (messageOrUnknown e) /\
  result (ui (world p')) = data /\
  loading (ui (world p')) = false /\
  inflight p' = inflight p.
Proof.
  intros Hok Hjson. cbv zeta. cbn [foldl]. rewrite !click_step.
  cbn [world inflight ui trace]. rewrite <- !app_assoc. cbn [app].
  (* the first run settles *)
  rewrite settle_at. cbn [fetchOutcome rest]. rewrite advance_afterFetch_rejected.
  (* the second run gets its response, then its body *)
  rewrite settle_at. cbn [fetchOutcome rest]. rewrite (advance_afterFetch_ok _ _ _ Hok).
  rewrite settle_at. cbn [fetchOutcome rest].
  rewrite (advance_afterJson_data _ _ _ _ Hjson).
  cbn [world ui error result loading inflight]. rewrite app_nil_r. repeat split.
Qed.

Lemma stale_error_beside_result_witness :
  let res := {| status := 200%N; json := Fulfilled (JStr "done") |} in
  let p' := foldl pageStep initialPage
              [User (ClickRun (Rejected {| message := Some "Failed to fetch" |}));
               User (ClickRun (Fulfilled res));
               Settle 0%nat; Settle 0%nat; Settle 0%nat] in
  (ok res = true /\ json res = Fulfilled (JStr "done")) /\
  (error (ui (world p')) = Some "Failed to fetch" /\
   result (ui (world p')) = JStr "done" /\
   loading (ui (world p')) = false /\
   inflight p' = []) /\
  conditionalChildren (ui (world p')) =
    [ErrorP "Failed to fetch"; ResultPre (JStr "done")].
Proof.
  cbv zeta. split; [split; reflexivity |]. split; [| reflexivity].
  apply (stale_error_beside_result initialPage
           {| message := Some "Failed to fetch" |}
           {| status := 200%N; json := Fulfilled (JStr "done") |}
           (JStr "done")); reflexivity.
Defined.

(** ** A response with a non-OK status *)

Lemma conditionalChildren_parts (s : AppState) :
  conditionalChildren s =
    (if loading s then [RunningP] else []) ++ shownError (error s) ++ shownResult (result s).
Proof. reflexivity. Qed.

(** A run in flight that waits for its fetch is the rest of [handleRun] after
    the fetch; one that waits for a body is the rest after [res.json()]. *)
Lemma suspended_at_fetch_inv (run : InFlight) :
  suspendedRun run -> waitingAt run = AtFetch ->
  rest run = afterFetch (fetchOutcome run).
Proof. intros [o | o res Hok] Hat; [reflexivity | discriminate Hat]. Qed.

Lemma suspended_at_json_inv (run : InFlight) (res : Response) :
  suspendedRun run -> waitingAt run = AtJson res ->
  rest run = afterJson res /\ ok res = true.
Proof.
  intros [o | o res' Hok] Hat; [discriminate Hat |].
  injection Hat as ->. split; [reflexivity | exact Hok].
Qed.

(** C10, as the form has it.  When the response to a run has a non-OK status,
    [handleRun] never calls [res.json()] on it: at the settling of that run
    [error] becomes "HTTP " followed by the decimal status code, [loading]
    becomes false, the run is over, and [result] is left as it was, in every
    interleaving with other runs and edits.  Handled with no other run in
    between, [result] is therefore null and the page shows that error and
    nothing else. *)
Theorem non_ok_sets_error (acts : list Action) (i : nat) (run : InFlight)
    (res : Response) (w : World) :
  (inflight (pageAfter acts) !! i = Some run -> waitingAt run = AtFetch ->
   fetchOutcome run = Fulfilled res -> ok res = false ->
   error (ui (world (pageStep (pageAfter acts) (Settle i)))) =
     Some ("HTTP " ++ NilZero.string_of_uint (N.to_uint (status res)))%string /\
   result (ui (world (pageStep (pageAfter acts) (Settle i)))) =
     result (ui (world (pageAfter acts))) /\
   loading (ui (world (pageStep (pageAfter acts) (Settle i)))) = false /\
   bodyReads (trace (world (pageStep (pageAfter acts) (Settle i)))) =
     bodyReads (trace (world (pageAfter acts))) /\
   inflight (pageStep (pageAfter acts) (Settle i)) = delete i (inflight (pageAfter acts))) /\
  (ok res = false ->
   error (ui (handleRun (Fulfilled res) w).1) =
     Some ("HTTP " ++ NilZero.string_of_uint (N.to_uint (status res)))%string /\
   result (ui (handleRun (Fulfilled res) w).1) = JNull /\
   bodyReads (trace (handleRun (Fulfilled res) w).1) = bodyReads (trace w) /\
   conditionalChildren (ui (handleRun (Fulfilled res) w).1) =
     [ErrorP ("HTTP " ++ NilZero.string_of_uint (N.to_uint (status res)))%string]).
Proof.
  split.
  - intros Hlook Hat Hout Hok.
    pose proof (Forall_lookup_1 _ _ _ _ (pageAfter_suspended acts) Hlook) as Hshape.
    pose proof (suspended_at_fetch_inv run Hshape Hat) as Hrest.
    unfold pageStep. rewrite Hlook, Hrest, Hout.
    rewrite (advance_afterFetch_not_ok _ _ _ Hok). repeat split.
  - intros Hok. rewrite (AppFacts.handleRun_not_ok res w Hok). cbn [fst ui trace].
    repeat split.
    unfold bodyReads. rewrite omap_app. cbn. apply app_nil_r.
Qed.

Lemma non_ok_sets_error_witness :
  let res := {| status := 404%N; json := Fulfilled (JStr "not found") |} in
  let acts := [User (TypeDataset "sales"); User (ClickRun (Fulfilled res))] in
  let run := mkInFlight (Fulfilled res) AtFetch (afterFetch (Fulfilled res)) in
  (inflight (pageAfter acts) !! 0%nat = Some run /\ waitingAt run = AtFetch /\
   fetchOutcome run = Fulfilled res /\ ok res = false) /\
  (error (ui (world (pageStep (pageAfter acts) (Settle 0%nat)))) = Some "HTTP 404" /\
   result (ui (world (pageStep (pageAfter acts) (Settle 0%nat)))) =
     result (ui (world (pageAfter acts))) /\
   loading (ui (world (pageStep (pageAfter acts) (Settle 0%nat)))) = false /\
   bodyReads (trace (world (pageStep (pageAfter acts) (Settle 0%nat)))) =
     bodyReads (trace (world (pageAfter acts))) /\
   inflight (pageStep (pageAfter acts) (Settle 0%nat)) =
     delete 0%nat (inflight (pageAfter acts))) /\
  (error (ui (handleRun (Fulfilled res) initialWorld).1) = Some "HTTP 404" /\
   result (ui (handleRun (Fulfilled res) initialWorld).1) = JNull /\
   bodyReads (trace (handleRun (Fulfilled res) initialWorld).1) =
     bodyReads (trace initialWorld) /\
   conditionalChildren (ui (handleRun (Fulfilled res) initialWorld).1) =
     [ErrorP "HTTP 404"]).
Proof.
  cbv zeta.
  pose proof (non_ok_sets_error
                [User (TypeDataset "sales");
                 User (ClickRun (Fulfilled {| status := 404%N;
                                              json := Fulfilled (JStr "not found") |}))]
                0%nat
                (mkInFlight (Fulfilled {| status := 404%N;
                                          json := Fulfilled (JStr "not found") |})
                   AtFetch
                   (afterFetch (Fulfilled {| status := 404%N;
                                             json := Fulfilled (JStr "not found") |})))
                {| status := 404%N; json := Fulfilled (JStr "not found") |}
                initialWorld) as [Hpage Hatomic].
  split; [repeat split |]. split.
  - apply Hpage; reflexivity.
  - apply Hatomic. reflexivity.
Defined.

(** C10 as stated fails when runs overlap, which the form does not prevent:
    a run answered 404 and a run answered 200 are both in flight, the second
    settles first and sets [result], then the first settles.  The state ends
    with error "HTTP 404" and a [result] that is not null, and the page shows
    both. *)
Lemma non_ok_beside_result :
  let notFound := {| status := 404%N; json := Fulfilled (JStr "not found") |} in
  let fine := {| status := 200%N; json := Fulfilled (JStr "done") |} in
  let p := pageAfter [User (ClickRun (Fulfilled notFound));
                      User (ClickRun (Fulfilled fine));
                      Settle 1%nat; Settle 1%nat; Settle 0%nat] in
  ok notFound = false /\
  error (ui (world p)) = Some "HTTP 404" /\
  result (ui (world p)) = JStr "done" /\
  result (ui (world p)) <> JNull /\
  conditionalChildren (ui (world p)) = [ErrorP "HTTP 404"; ResultPre (JStr "done")] /\
  bodyReads (trace (world p)) = [fine].
Proof.
  cbv zeta. repeat split; try reflexivity. intros H. discriminate H.
Qed.

(** ** The controls *)

Lemma settle_keeps_form (p : Page) (i : nat) :
  Forall suspendedRun (inflight p) ->
  formValues (ui (world (pageStep p (Settle i)))) = formValues (ui (world p)).
Proof.
  intros Hall. destruct (inflight p !! i) as [run |] eqn:Hlook;
    [| rewrite (settle_nothing _ _ Hlook); reflexivity].
  pose proof (Forall_lookup_1 _ _ _ _ Hall Hlook) as Hshape.
  settle_run Hlook Hshape; reflexivity.
Qed.

(** X12.  At every moment the state behind each control is the last value the
    user entered into it, or its initial value if there was none (for the
    limit, [Number] of the last value entered), whatever runs were started or
    settled in between. *)
Theorem controls_hold_last_entry (acts : list Action) :
  formValues (ui (world (pageAfter acts))) =
    (default Transcript_Generator (last (selectedStages (userEvents acts))),
     default "" (last (typedProjectIds (userEvents acts))),
     default "" (last (typedDatasets (userEvents acts))),
     default "" (last (typedSourceVersions (userEvents acts))),
     default "" (last (typedTargetVersions (userEvents acts))),
     default 100%Q (last (Number <$> typedLimits (userEvents acts)))).
Proof.
  induction acts as [| a acts IH] using rev_ind; [reflexivity |].
  unfold pageAfter. rewrite foldl_snoc. fold (pageAfter acts).
  pose proof (pageAfter_suspended acts) as Hall.
  unfold userEvents, selectedStages, typedProjectIds, typedDatasets,
    typedSourceVersions, typedTargetVersions, typedLimits in *.
  rewrite omap_app. destruct a as [ev | i].
  - cbn [omap list_omap]. rewrite !omap_app, fmap_app.
    destruct ev as [v | v | v | v | v | v | outcome];
      cbn [omap list_omap fmap list_fmap];
      rewrite ?app_nil_r, ?last_snoc;
      try (rewrite click_step; exact IH);
      rewrite edit_step by reflexivity;
      unfold formValues in *; cbn [world step handler fst ui
        stage projectId dataset sourceVersion targetVersion limit
        setStage setProjectId setDataset setSourceVersion setTargetVersion setLimit
        modifyState from_option id];
      injection IH as H1 H2 H3 H4 H5 H6;
      rewrite <- ?H1, <- ?H2, <- ?H3, <- ?H4, <- ?H5, <- ?H6; reflexivity.
  - cbn [omap list_omap]. rewrite app_nil_r, (settle_keeps_form _ _ Hall). exact IH.
Qed.

End PageFacts.

(* ===================================================================== *)
(** * Facts about what a run leaves on the page                           *)
(* ===================================================================== *)

Module SessionFacts.
Import App.
Import AppFacts.
Import PageFacts.

(** [handleRun] never touches the six controls of the form. *)
Lemma handleRun_keeps_form (outcome : Settled Response) (w : World) :
  stage (ui (handleRun outcome w).1) = stage (ui w) /\
  projectId (ui (handleRun outcome w).1) = projectId (ui w) /\
  dataset (ui (handleRun outcome w).1) = dataset (ui w) /\
  sourceVersion (ui (handleRun outcome w).1) = sourceVersion (ui w) /\
  targetVersion (ui (handleRun outcome w).1) = targetVersion (ui w) /\
  limit (ui (handleRun outcome w).1) = limit (ui w).
Proof. by_outcome outcome; repeat split. Qed.

(** X8.  A run ends in one of two ways and no other: the response was OK and
    its body parsed, then [result] is the parsed body and [error] is null;
    or [result] is null and [error] holds a message.  Nothing of the state
    before the run shows in either. *)
Theorem handleRun_result_or_error (outcome : Settled Response) (w : World) :
  (exists res data,
      outcome = Fulfilled res /\ ok res = true /\ json res = Fulfilled data /\
      result (ui (handleRun outcome w).1) = data /\
      error (ui (handleRun outcome w).1) = None) \/
  (result (ui (handleRun outcome w).1) = JNull /\
   exists m, error (ui (handleRun outcome w).1) = Some m).
Proof.
  by_outcome outcome; cbn [fst ui result error].
  - left. eauto 10.
  - right. eauto.
  - right. eauto.
  - right. eauto.
Qed.

(** What every session handled one event at a time keeps true. *)
Lemma step_settled (w : World) (ev : Event) :
  loading (ui w) = false /\ (error (ui w) = None \/ result (ui w) = JNull) ->
  loading (ui (step w ev)) = false /\
  (error (ui (step w ev)) = None \/ result (ui (step w ev)) = JNull).
Proof.
  intros Hinv. destruct ev as [v | v | v | v | v | v | outcome]; try exact Hinv.
  unfold step, handler. by_outcome outcome; cbn [fst ui loading error result]; auto.
Qed.

Lemma foldl_step_settled (evs : list Event) (w : World) :
  loading (ui w) = false /\ (error (ui w) = None \/ result (ui w) = JNull) ->
  loading (ui (foldl step w evs)) = false /\
  (error (ui (foldl step w evs)) = None \/ result (ui (foldl step w evs)) = JNull).
Proof.
  revert w. induction evs as [| ev evs IH]; intros w Hinv; [exact Hinv |].
  cbn [foldl]. apply IH, step_settled, Hinv.
Qed.

(** Whatever happens, a page with no run in flight is not loading. *)
Lemma pageStep_idle (p : Page) (a : Action) :
  Forall suspendedRun (inflight p) ->
  (inflight p = [] -> loading (ui (world p)) = false) ->
  inflight (pageStep p a) = [] -> loading (ui (world (pageStep p a))) = false.
Proof.
  intros Hall Hidle. destruct a as [ev | i].
  - destruct (isClick ev) eqn:Hclick.
    + destruct ev; try discriminate Hclick. rewrite click_step. cbn [inflight].
      intros Hnil. apply app_eq_nil in Hnil as [_ Hnil]. discriminate Hnil.
    + rewrite (edit_step _ _ Hclick). cbn [inflight world]. intros Hnil.
      rewrite <- (Hidle Hnil). destruct ev; try discriminate Hclick; reflexivity.
  - destruct (inflight p !! i) as [run |] eqn:Hlook;
      [| rewrite (settle_nothing _ _ Hlook); exact Hidle].
    pose proof (Forall_lookup_1 _ _ _ _ Hall Hlook) as Hshape.
    pose proof (lookup_lt_Some _ _ _ Hlook) as Hlt.
    settle_run Hlook Hshape; cbn [inflight world ui loading]; intros Hnil;
      try reflexivity.
    apply (f_equal length) in Hnil. rewrite length_insert in Hnil.
    cbn [length] in Hnil. lia.
Qed.

Lemma foldl_pageStep_idle (acts : list Action) (p : Page) :
  Forall suspendedRun (inflight p) ->
  (inflight p = [] -> loading (ui (world p)) = false) ->
  inflight (foldl pageStep p acts) = [] ->
  loading (ui (world (foldl pageStep p acts))) = false.
Proof.
  revert p. induction acts as [| a acts IH]; intros p Hall Hidle; [exact Hidle |].
  cbn [foldl]. apply IH; [apply pageStep_suspended | apply pageStep_idle]; assumption.
Qed.

(** X9.  In every interleaving of clicks, edits and settlements, whenever no
    run is in flight [loading] is false.  In a session whose runs do not
    overlap, once the run of each click has settled no run is in flight,
    [loading] is false and the state never holds an error together with a
    result. *)
Theorem settled_page_state (acts : list Action) (evs : list Event) :
  (inflight (pageAfter acts) = [] -> loading (ui (world (pageAfter acts))) = false) /\
  (inflight (pageAfter (oneAtATime evs)) = [] /\
   loading (ui (world (pageAfter (oneAtATime evs)))) = false /\
   (error (ui (world (pageAfter (oneAtATime evs)))) = None \/
    result (ui (world (pageAfter (oneAtATime evs)))) = JNull)).
Proof.
  split.
  - apply foldl_pageStep_idle; [constructor | reflexivity].
  - unfold pageAfter, initialPage. rewrite one_at_a_time_from. cbn [inflight world].
    split; [reflexivity |].
    apply foldl_step_settled. split; [reflexivity | left; reflexivity].
Qed.

Lemma settled_page_state_witness :
  let acts := [User (ClickRun (Rejected {| message := Some "Failed to fetch" |}));
               User (TypeDataset "sales"); Settle 0%nat] in
  inflight (pageAfter acts) = [] /\
  loading (ui (world (pageAfter acts))) = false.
Proof.
  cbv zeta. split; [reflexivity |].
  apply (proj1 (settled_page_state
                  [User (ClickRun (Rejected {| message := Some "Failed to fetch" |}));
                   User (TypeDataset "sales"); Settle 0%nat] [])).
  reflexivity.
Defined.

(** X10.  When the body of an OK response has parsed, at the settling of that
    run the page shows the result block exactly when the parsed value is
    truthy; for null, false and the empty string it shows no result, for the
    number 0 the bare text 0.  An error that another, overlapping run has left
    stays shown in front of it; handled with no other run in between, no
    error is shown. *)
Theorem success_display (acts : list Action) (i : nat) (run : InFlight)
    (res : Response) (data : Json) (w : World) :
  (inflight (pageAfter acts) !! i = Some run -> waitingAt run = AtJson res ->
   json res = Fulfilled data ->
   conditionalChildren (ui (world (pageStep (pageAfter acts) (Settle i)))) =
     shownError (error (ui (world (pageAfter acts))))
     ++ (if truthy data then [ResultPre data]
         else match data with
              | JNum _ => [TextNode "0"]
              | _ => []
              end)) /\
  (ok res = true -> json res = Fulfilled data ->
   conditionalChildren (ui (handleRun (Fulfilled res) w).1) =
     if truthy data then [ResultPre data]
     else match data with
          | JNum _ => [TextNode "0"]
          | _ => []
          end).
Proof.
  split.
  - intros Hlook Hat Hjson.
    pose proof (Forall_lookup_1 _ _ _ _ (pageAfter_suspended acts) Hlook) as Hshape.
    destruct (suspended_at_json_inv run res Hshape Hat) as [Hrest _].
    unfold pageStep. rewrite Hlook, Hrest.
    rewrite (advance_afterJson_data _ _ _ _ Hjson). reflexivity.
  - intros Hok Hjson. rewrite (handleRun_ok_data res data w Hok Hjson).
    unfold conditionalChildren. cbn [fst ui loading error result app].
    reflexivity.
Qed.

Lemma success_display_witness :
  let res := {| status := 200%N; json := Fulfilled JNull |} in
  let acts := [User (ClickRun (Fulfilled res)); Settle 0%nat] in
  let run := mkInFlight (Fulfilled res) (AtJson res) (afterJson res) in
  (inflight (pageAfter acts) !! 0%nat = Some run /\ waitingAt run = AtJson res /\
   json res = Fulfilled JNull /\ ok res = true) /\
  conditionalChildren (ui (world (pageStep (pageAfter acts) (Settle 0%nat)))) = [] /\
  conditionalChildren (ui (handleRun (Fulfilled res) initialWorld).1) = [].
Proof.
  cbv zeta.
  pose proof (success_display
                [User (ClickRun (Fulfilled {| status := 200%N; json := Fulfilled JNull |}));
                 Settle 0%nat]
                0%nat
                (mkInFlight (Fulfilled {| status := 200%N; json := Fulfilled JNull |})
                   (AtJson {| status := 200%N; json := Fulfilled JNull |})
                   (afterJson {| status := 200%N; json := Fulfilled JNull |}))
                {| status := 200%N; json := Fulfilled JNull |} JNull initialWorld)
    as [Hpage Hatomic].
  split; [repeat split |]. split.
  - apply Hpage; reflexivity.
  - apply Hatomic; reflexivity.
Defined.

(** X11.  When the fetch of a run rejects, or its OK response has a body that
    does not parse, with the thrown value [e], at the settling of that run
    the page shows the error paragraph with [e.message], or with "Unknown
    error" when [e] has no message, and no error paragraph at all when the
    message is the empty string.  A result that another, overlapping run has
    left stays shown behind it; handled with no other run in between, the
    page shows nothing else. *)
Theorem failure_display (acts : list Action) (i : nat) (run : InFlight)
    (outcome : Settled Response) (e : JsError) (w : World) :
  (inflight (pageAfter acts) !! i = Some run ->
   (waitingAt run = AtFetch /\ fetchOutcome run = Rejected e) \/
   (exists res, waitingAt run = AtJson res /\ json res = Rejected e) ->
   conditionalChildren (ui (world (pageStep (pageAfter acts) (Settle i)))) =
     match message e with
     | Some "" => []
     | Some m => [ErrorP m]
     | None => [ErrorP "Unknown error"]
     end
     ++ shownResult (result (ui (world (pageAfter acts))))) /\
  (outcome = Rejected e \/
   (exists res, outcome = Fulfilled res /\ ok res = true /\ json res = Rejected e) ->
   conditionalChildren (ui (handleRun outcome w).1) =
     match message e with
     | Some "" => []
     | Some m => [ErrorP m]
     | None => [ErrorP "Unknown error"]
     end).
Proof.
  split.
  - intros Hlook Hcase.
    pose proof (Forall_lookup_1 _ _ _ _ (pageAfter_suspended acts) Hlook) as Hshape.
    unfold pageStep. rewrite Hlook.
    destruct Hcase as [[Hat Hout] | (res & Hat & Hjson)].
    + rewrite (suspended_at_fetch_inv run Hshape Hat), Hout.
      rewrite advance_afterFetch_rejected.
      unfold conditionalChildren, shownResult, messageOrUnknown.
      cbn [world ui loading error result app].
      destruct (message e) as [[| c m] |]; reflexivity.
    + destruct (suspended_at_json_inv run res Hshape Hat) as [Hrest _].
      rewrite Hrest, (advance_afterJson_rejected _ _ _ _ Hjson).
      unfold conditionalChildren, shownResult, messageOrUnknown.
      cbn [world ui loading error result app].
      destruct (message e) as [[| c m] |]; reflexivity.
  - intros [-> | (res & -> & Hok & Hjson)].
    + rewrite handleRun_rejected. unfold conditionalChildren, messageOrUnknown.
      cbn [fst ui loading error result app truthy].
      destruct (message e) as [[| c m] |]; reflexivity.
    + rewrite (handleRun_ok_unreadable res e w Hok Hjson).
      unfold conditionalChildren, messageOrUnknown.
      cbn [fst ui loading error result app truthy].
      destruct (message e) as [[| c m] |]; reflexivity.
Qed.

Lemma failure_display_witness :
  let e := {| message := Some "" |} in
  let acts := [User (ClickRun (Rejected e))] in
  let run := mkInFlight (Rejected e) AtFetch (afterFetch (Rejected e)) in
  (inflight (pageAfter acts) !! 0%nat = Some run /\
   waitingAt run = AtFetch /\ fetchOutcome run = Rejected e) /\
  conditionalChildren (ui (world (pageStep (pageAfter acts) (Settle 0%nat)))) = [] /\
  conditionalChildren (ui (handleRun (Rejected e) initialWorld).1) = [].
Proof.
  cbv zeta.
  pose proof (failure_display
                [User (ClickRun (Rejected {| message := Some "" |}))] 0%nat
                (mkInFlight (Rejected {| message := Some "" |}) AtFetch
                   (afterFetch (Rejected {| message := Some "" |})))
                (Rejected {| message := Some "" |}) {| message := Some "" |}
                initialWorld) as [Hpage Hatomic].
  split; [repeat split |]. split.
  - apply Hpage; [reflexivity | left; split; reflexivity].
  - apply Hatomic. left. reflexivity.
Defined.

End SessionFacts.
